(** * Movie recommendation backend: accounts, auth gate and favorites

    A shallow embedding of the Express server (user schema, the
    [authenticateToken] middleware, the register / login handlers and
    the two favorites handlers), followed by the properties the
    specification states about them.

    The handlers are asynchronous JavaScript; a single request is
    embedded as a computation in a state-and-exception monad over a
    [World] holding the user collection, the clock, the generators the
    libraries draw from, and a chronological log of the calls made to
    the store and to the external libraries. *)

From Stdlib Require Import ZArith Ascii String List Bool Lia.
From stdpp Require Import base option list strings.

Set Warnings "-register-all".

Local Open Scope Z_scope.
Local Open Scope string_scope.
Local Open Scope list_scope.

(** ** JavaScript values *)

Definition ObjectId := nat.

(** The values that flow through request bodies, token payloads,
    upstream responses and JSON replies.  Numbers are the integers;
    [JOid] is an ObjectId (rendered by JSON as its hex string) and
    [JDate] a Date given by its millisecond timestamp. *)
Inductive JsVal : Type :=
| JUndefined
| JNull
| JBool (b : bool)
| JNum (n : Z)
| JStr (s : string)
| JOid (o : ObjectId)
| JDate (t : Z)
| JArr (items : list JsVal)
| JObj (fields : list (string * JsVal)).

(** [!v] is [negb (js_truthy v)]. *)
Definition js_truthy (v : JsVal) : bool :=
  match v with
  | JUndefined | JNull => false
  | JBool b => b
  | JNum n => negb (Z.eqb n 0)
  | JStr s => negb (String.eqb s "")
  | JOid _ | JDate _ | JArr _ | JObj _ => true
  end.

(** [a === b] on values coming from two different sources: primitives
    compare by type and value, objects by reference (hence never equal
    here). *)
Definition js_strict_eq (a b : JsVal) : bool :=
  match a, b with
  | JUndefined, JUndefined => true
  | JNull, JNull => true
  | JBool x, JBool y => Bool.eqb x y
  | JNum x, JNum y => Z.eqb x y
  | JStr x, JStr y => String.eqb x y
  | _, _ => false
  end.

Fixpoint assoc (k : string) (fs : list (string * JsVal)) : option JsVal :=
  match fs with
  | [] => None
  | (k', v) :: rest => if String.eqb k k' then Some v else assoc k rest
  end.

(** Property read [v.k] (also what destructuring does).  [None] is the
    TypeError raised on [undefined] and [null]; a missing own property
    reads as [undefined].  None of the keys read by the server is a
    built-in property of strings, arrays or numbers. *)
Definition js_get (v : JsVal) (k : string) : option JsVal :=
  match v with
  | JUndefined | JNull => None
  | JObj fs => Some (default JUndefined (assoc k fs))
  | _ => Some JUndefined
  end.

(** [s.split(sep)] for a one-character separator. *)
Fixpoint split (sep : ascii) (s : string) : list string :=
  match s with
  | EmptyString => [EmptyString]
  | String c rest =>
      if Ascii.eqb c sep then EmptyString :: split sep rest
      else match split sep rest with
           | [] => [String c EmptyString]
           | x :: xs => String c x :: xs
           end
  end.

(** ** The user schema *)

Record Favorite := mkFavorite { movieId : Z; addedAt : Z }.

Record Watchlist := mkWatchlist {
  name : string;
  movies : list Favorite;
  wl_createdAt : Z
}.

(** A stored user document ([timestamps: true] adds the two dates). *)
Record User := mkUser {
  _id : ObjectId;
  username : string;
  email : string;
  password : string;
  favorites : list Favorite;
  watchlists : list Watchlist;
  createdAt : Z;
  updatedAt : Z
}.

(** An in-memory Mongoose document.  [doc_password] is [None] when the
    path was projected away with [select('-password')]; [doc_modified]
    lists the paths changed since the document was loaded or created. *)
Record Doc := mkDoc {
  doc_id : ObjectId;
  doc_username : string;
  doc_email : string;
  doc_password : option string;
  doc_favorites : list Favorite;
  doc_watchlists : list Watchlist;
  doc_isNew : bool;
  doc_modified : list string
}.

Definition isModified (d : Doc) (path : string) : bool :=
  existsb (String.eqb path) (doc_modified d).

Definition markModified (path : string) (d : Doc) : Doc :=
  mkDoc (doc_id d) (doc_username d) (doc_email d) (doc_password d)
        (doc_favorites d) (doc_watchlists d) (doc_isNew d)
        (if isModified d path then doc_modified d else doc_modified d ++ [path]).

Definition hydrate (u : User) : Doc :=
  mkDoc (_id u) (username u) (email u) (Some (password u))
        (favorites u) (watchlists u) false [].

(** [.select('-password')] *)
Definition select_minus_password (d : Doc) : Doc :=
  mkDoc (doc_id d) (doc_username d) (doc_email d) None
        (doc_favorites d) (doc_watchlists d) (doc_isNew d) (doc_modified d).

(** ** The world a request runs in *)

Inductive Query :=
| QEmail (e : string)
| QEmailOrUsername (e u : string).

(** Calls that leave the handler, in the order they are made. *)
Inductive Event :=
| EvFindById (id : JsVal)
| EvFindOne (q : Query)
| EvInsert (id : ObjectId)
| EvUpdate (id : ObjectId)
| EvBcryptHash (plain : string)
| EvBcryptCompare (candidate hash : string)
| EvJwtSign (payload : JsVal)
| EvJwtVerify (token : string)
| EvTmdbGet (movie : Z).

Record World := mkWorld {
  store : list User;
  clock : Z;
  next_oid : ObjectId;
  next_salt : nat;
  trace : list Event
}.

Inductive Exn :=
| TypeError
| CastError
| ValidationError
| DuplicateKeyError
| DocumentNotFoundError
| JsonWebTokenError
| BcryptError
| AxiosError.

(** ** State and exception monad *)

Definition M (A : Type) : Type := World -> (Exn + A) * World.

Definition ret {A} (a : A) : M A := fun w => (inr a, w).

Definition throw {A} (e : Exn) : M A := fun w => (inl e, w).

Definition bind {A B} (m : M A) (k : A -> M B) : M B :=
  fun w => match m w with
           | (inl e, w') => (inl e, w')
           | (inr a, w') => k a w'
           end.

(** [try { m } catch (error) { h error }]: what [m] did to the world
    before throwing stays done. *)
Definition try_catch {A} (m : M A) (h : Exn -> M A) : M A :=
  fun w => match m w with
           | (inl e, w') => h e w'
           | (inr a, w') => (inr a, w')
           end.

Notation "'let*' x := m 'in' k" := (bind m (fun x => k))
  (at level 10, x name, m at level 100, k at level 200).
Notation "'do*' m 'in' k" := (bind m (fun _ => k))
  (at level 10, m at level 100, k at level 200).

Definition log (e : Event) : M unit :=
  fun w => (inr tt, mkWorld (store w) (clock w) (next_oid w) (next_salt w)
                            (trace w ++ [e])).

Definition now : M Z := fun w => (inr (clock w), w).

Definition lift_option {A} (e : Exn) (o : option A) : M A :=
  match o with Some a => ret a | None => throw e end.

(** [await Promise.all(xs.map(async x => f x))] where [f] is run for
    the elements in list order and the results are collected by index. *)
Fixpoint mapM_M {A B} (f : A -> M B) (xs : list A) : M (list B) :=
  match xs with
  | [] => ret []
  | x :: rest => let* y := f x in let* ys := mapM_M f rest in ret (y :: ys)
  end.

(** ** HTTP replies *)

Record Response := mkResponse { status : Z; body : JsVal }.

Definition failure (code : Z) (message : string) : Response :=
  mkResponse code (JObj [("success", JBool false); ("message", JStr message)]).

Definition failure_with (code : Z) (message error : string) : Response :=
  mkResponse code (JObj [("success", JBool false); ("message", JStr message);
                         ("error", JStr error)]).

(** ** Session tokens *)

(** The server signs and verifies its tokens with the jsonwebtoken
    package, which is not part of the repository; only the two call
    sites are.  This module is the specification's account of that
    issuer and verifier (section 4.2), over an arbitrary keyed
    signature. *)
Module SessionToken.

Record Claims := mkClaims { user_identifier : ObjectId; claim_email : string }.

Record Payload := mkPayload {
  claims : Claims;
  issued_at : Z;
  expiry : Z
}.

(** What can be presented as a token: a payload with a signature, or
    something that does not decode into one. *)
Inductive Token :=
| Signed (p : Payload) (sig : string)
| Malformed (raw : string).

Inductive TokenError := InvalidToken.

(** Seven days, in seconds. *)
Definition lifetime : Z := 7 * 24 * 60 * 60.

Section Keyed.

(** The signature of a payload under the server-held secret. *)
Variable sign : string -> Payload -> string.

(** Modelled from the spec: [issue(user_identifier, email) -> token]
    of the missing token library, "a signed, tamper-evident token
    embedding the two claims plus an issued-at and 7-day expiry, using
    a server-held secret". *)
Definition issue (secret : string) (t : Z) (uid : ObjectId) (mail : string)
  : Token :=
  let p := mkPayload (mkClaims uid mail) t (t + lifetime) in
  Signed p (sign secret p).

(** Modelled from the spec: [verify(token)] of the missing token
    library, which "fails with InvalidToken when: signature mismatch,
    malformed token, or expiry elapsed" and otherwise yields the
    claims. *)
Definition verify (secret : string) (t : Z) (tok : Token)
  : TokenError + Claims :=
  match tok with
  | Malformed _ => inl InvalidToken
  | Signed p sig =>
      if negb (String.eqb sig (sign secret p)) then inl InvalidToken
      else if Z.leb (expiry p) t then inl InvalidToken
      else inr (claims p)
  end.

End Keyed.

End SessionToken.

(** ** The catalogue proxies *)

(** The four movie routes forward one call to the catalogue and reshape
    what comes back.  Their only effect is that call, so a run is the
    list of calls made together with the reply. *)

(** What the [try] block of a proxy can throw: the rejection of the
    catalogue call, with its [error.response] ([undefined] when there
    was none) and [error.message], or an error raised by the handler's
    own expressions. *)
Inductive Thrown :=
| AxiosFailure (response : JsVal) (message : string)
| NativeError (message : string).

Definition thrown_response (e : Thrown) : JsVal :=
  match e with
  | AxiosFailure r _ => r
  | NativeError _ => JUndefined
  end.

Definition thrown_message (e : Thrown) : string :=
  match e with
  | AxiosFailure _ m => m
  | NativeError m => m
  end.

(** [v?.k] *)
Definition js_get_optional (v : JsVal) (k : string) : JsVal :=
  default JUndefined (js_get v k).

(** [a || b] *)
Definition js_or (a b : JsVal) : JsVal := if js_truthy a then a else b.

(** [v.slice(0, n)]: arrays and strings have it, [None] is the
    TypeError on anything else. *)
Definition js_slice (v : JsVal) (n : nat) : option JsVal :=
  match v with
  | JArr items => Some (JArr (take n items))
  | JStr s => Some (JStr (String.substring 0 n s))
  | _ => None
  end.

(** A call [tmdbAPI.get(path, { params })]. *)
Definition UpstreamCall : Type := string * list (string * JsVal).

Definition Proxy (A : Type) : Type := list UpstreamCall * (Thrown + A).

Definition p_ret {A} (a : A) : Proxy A := ([], inr a).

Definition p_throw {A} (e : Thrown) : Proxy A := ([], inl e).

Definition p_bind {A B} (m : Proxy A) (k : A -> Proxy B) : Proxy B :=
  match m with
  | (calls, inl e) => (calls, inl e)
  | (calls, inr a) => (calls ++ fst (k a), snd (k a))
  end.

Notation "'let+' x := m 'in' k" := (p_bind m (fun x => k))
  (at level 10, x name, m at level 100, k at level 200).

(** [try { m } catch (error) { res... h error }] *)
Definition p_catch (m : Proxy Response) (h : Thrown -> Response)
  : list UpstreamCall * Response :=
  match m with
  | (calls, inl e) => (calls, h e)
  | (calls, inr r) => (calls, r)
  end.

Fixpoint p_mapM {A B} (f : A -> Proxy B) (xs : list A) : Proxy (list B) :=
  match xs with
  | [] => p_ret []
  | x :: rest =>
      let+ y := f x in let+ ys := p_mapM f rest in p_ret (y :: ys)
  end.

(** [error.response?.data?.status_message || error.message] *)
Definition error_detail (error : Thrown) : JsVal :=
  js_or (js_get_optional (js_get_optional (thrown_response error) "data")
                         "status_message")
        (JStr (thrown_message error)).

Definition upstream_failure (message : string) (error : Thrown) : Response :=
  mkResponse 500 (JObj [("success", JBool false); ("message", JStr message);
                        ("error", error_detail error)]).

Section Catalog.

(** [tmdbAPI.get(path, { params })]: the [response.data] it resolves
    to, or what it rejects with. *)
Variable tmdb_request : string -> list (string * JsVal) -> Thrown + JsVal.

(** The message of the TypeError raised by reading or calling
    property [k] of [v]. *)
Variable type_error_message : JsVal -> string -> string.

Definition p_request (path : string) (params : list (string * JsVal))
  : Proxy JsVal :=
  ([(path, params)], tmdb_request path params).

(** [v.k] inside a [try] block. *)
Definition p_get (v : JsVal) (k : string) : Proxy JsVal :=
  match js_get v k with
  | Some x => p_ret x
  | None => p_throw (NativeError (type_error_message v k))
  end.

(** [{ k1: v.k1, k2: v.k2, ... }] *)
Definition p_pick (keys : list string) (v : JsVal)
  : Proxy (list (string * JsVal)) :=
  p_mapM (fun k => let+ x := p_get v k in p_ret (k, x)) keys.

(** [v.map(f)] *)
Definition p_map (v : JsVal) (f : JsVal -> Proxy JsVal) : Proxy JsVal :=
  match v with
  | JArr items => let+ ys := p_mapM f items in p_ret (JArr ys)
  | _ => p_throw (NativeError (type_error_message v "map"))
  end.

(** [const { page = 1 } = req.query] *)
Definition page_or_default (pageV : JsVal) : JsVal :=
  match pageV with
  | JUndefined => JNum 1
  | _ => pageV
  end.

Definition popular_fields : list string :=
  ["id"; "title"; "overview"; "poster_path"; "backdrop_path"; "release_date";
   "vote_average"; "vote_count"; "genre_ids"].

Definition search_fields : list string :=
  ["id"; "title"; "overview"; "poster_path"; "release_date"; "vote_average"].

(** GET /api/movies/popular *)
Definition popular_movies (req_query : JsVal)
  : list UpstreamCall * Response :=
  p_catch
    (let+ pageV := p_get req_query "page" in
     let page := page_or_default pageV in
     let+ data := p_request "/movie/popular" [("page", page)] in
     let+ results := p_get data "results" in
     let+ movies := p_map results
                      (fun movie => let+ fs := p_pick popular_fields movie in
                                    p_ret (JObj fs)) in
     let+ total_pages := p_get data "total_pages" in
     let+ total_results := p_get data "total_results" in
     let+ page' := p_get data "page" in
     p_ret (mkResponse 200
              (JObj [("success", JBool true); ("results", movies);
                     ("total_pages", total_pages);
                     ("total_results", total_results);
                     ("page", page')])))
    (upstream_failure "Error fetching movies from TMDB").

(** GET /api/movies/search *)
Definition search_movies (req_query : JsVal)
  : list UpstreamCall * Response :=
  p_catch
    (let+ query := p_get req_query "query" in
     let+ pageV := p_get req_query "page" in
     let page := page_or_default pageV in
     if negb (js_truthy query)
     then p_ret (failure 400 "Search query is required")
     else
       let+ data := p_request "/search/movie" [("query", query); ("page", page)] in
       let+ results := p_get data "results" in
       let+ movies := p_map results
                        (fun movie => let+ fs := p_pick search_fields movie in
                                      p_ret (JObj fs)) in
       let+ total_pages := p_get data "total_pages" in
       let+ total_results := p_get data "total_results" in
       let+ page' := p_get data "page" in
       p_ret (mkResponse 200
                (JObj [("success", JBool true); ("results", movies);
                       ("total_pages", total_pages);
                       ("total_results", total_results);
                       ("page", page'); ("query", query)])))
    (upstream_failure "Error searching movies").

(** [data[section]?.[key].slice(0, n) || []] *)
Definition p_first (data : JsVal) (section key : string) (n : nat)
  : Proxy JsVal :=
  let+ parent := p_get data section in
  match parent with
  | JUndefined | JNull => p_ret (JArr [])
  | _ =>
      let+ all := p_get parent key in
      match js_slice all n with
      | Some part => p_ret (js_or part (JArr []))
      | None => p_throw (NativeError (type_error_message all "slice"))
      end
  end.

Definition detail_fields : list string :=
  ["id"; "title"; "overview"; "poster_path"; "backdrop_path"; "release_date";
   "runtime"; "vote_average"; "vote_count"; "genres"; "production_companies"].

(** GET /api/movies/:id *)
Definition movie_details (id : string) : list UpstreamCall * Response :=
  p_catch
    (let+ data := p_request ("/movie/" +:+ id)
                    [("append_to_response", JStr "credits,videos,similar")] in
     let+ plain := p_pick detail_fields data in
     let+ cast := p_first data "credits" "cast" 10 in
     let+ crew := p_first data "credits" "crew" 5 in
     let+ videosV := p_get data "videos" in
     let videos := js_or (js_get_optional videosV "results") (JArr []) in
     let+ similar := p_first data "similar" "results" 6 in
     p_ret (mkResponse 200
              (JObj [("success", JBool true);
                     ("data", JObj (plain ++ [("cast", cast); ("crew", crew);
                                              ("videos", videos);
                                              ("similar", similar)]))])))
    (upstream_failure "Error fetching movie details").

(** GET /api/movies/genres/list *)
Definition genres_list : list UpstreamCall * Response :=
  p_catch
    (let+ data := p_request "/genre/movie/list" [] in
     let+ genres := p_get data "genres" in
     p_ret (mkResponse 200 (JObj [("success", JBool true); ("genres", genres)])))
    (fun error => failure 500 "Error fetching genres").

End Catalog.

(** The object [{ k1: v.k1, k2: v.k2, ... }] read off a value that
    is neither [undefined] nor [null]. *)
Definition picked (keys : list string) (v : JsVal) : JsVal :=
  JObj ((fun k => (k, js_get_optional v k)) <$> keys).

Definition nullish (v : JsVal) : bool :=
  match v with
  | JUndefined | JNull => true
  | _ => false
  end.

(** An array of at most [n] items, or a string of at most [n]
    characters. *)
Definition at_most (n : nat) (v : JsVal) : Prop :=
  match v with
  | JArr items => (length items <= n)%nat
  | JStr s => (String.length s <= n)%nat
  | _ => False
  end.

(** ** The client's Authorization header *)

(** [`Bearer ${token}`] with [token = localStorage.getItem('token')],
    which is [null] when nothing is stored. *)
Definition authorization_header (token : option string) : string :=
  "Bearer " +:+ default "null" token.

(** ** Sample data *)

Definition sample_user : User :=
  mkUser 7%nat "ana" "a@x.com" "hash:secret1"
         [mkFavorite 101 1000; mkFavorite 202 2000; mkFavorite 303 3000]
         [] 500 500.

Definition sample_world : World := mkWorld [sample_user] 5000 8%nat 0%nat [].

Definition sample_req_user : Doc := select_minus_password (hydrate sample_user).

Definition sample_sign (payload : JsVal) (secret expiresIn : string) (t : Z)
  : string := "token-for-" +:+ secret.

(** The payload [jwt.verify] gives back for a token signed for user 7:
    the identifier as its 24 hexadecimal digits, the email, and the two
    dates the library adds. *)
Definition sample_decoded : JsVal :=
  JObj [("userId", JStr "000000000000000000000007");
        ("email", JStr "a@x.com");
        ("iat", JNum 5); ("exp", JNum 604805)].

(** The payload of a token signed for an account that is no longer
    stored. *)
Definition sample_decoded_stale : JsVal :=
  JObj [("userId", JStr "000000000000000000000009");
        ("email", JStr "gone@x.com");
        ("iat", JNum 4); ("exp", JNum 604804)].

Definition sample_verify (token secret : string) (t : Z) : option JsVal :=
  if String.eqb token "good" then Some sample_decoded
  else if String.eqb token "stale" then Some sample_decoded_stale
  else None.

Definition hex_digit (c : ascii) : option nat :=
  let n := nat_of_ascii c in
  if Nat.leb 48 n && Nat.leb n 57 then Some (n - 48)%nat
  else if Nat.leb 97 n && Nat.leb n 102 then Some (n - 87)%nat
  else if Nat.leb 65 n && Nat.leb n 70 then Some (n - 55)%nat
  else None.

Fixpoint hex_value (acc : nat) (s : string) : option nat :=
  match s with
  | EmptyString => Some acc
  | String c rest => d ← hex_digit c; hex_value (16 * acc + d)%nat rest
  end.

(** The cast of a string of 24 hexadecimal digits to the ObjectId it
    spells; nothing else casts. *)
Definition sample_cast_oid (v : JsVal) : option ObjectId :=
  match v with
  | JStr s => if Nat.eqb (String.length s) 24 then hex_value 0 s else None
  | _ => None
  end.

(** A schema cast that, like Mongoose's, turns the string "0" into the
    number 0. *)
Definition cast_zero_string (v : JsVal) : option Z :=
  match v with
  | JStr s => if String.eqb s "0" then Some 0 else None
  | _ => None
  end.

Definition sample_hash (plain : string) (cost : Z) (salt : nat) : string :=
  "hash:" +:+ plain.

Definition sample_compare (candidate hash : string) : bool :=
  String.eqb ("hash:" +:+ candidate) hash.

Definition sample_detail (id : Z) : JsVal :=
  JObj [("id", JNum id); ("title", JStr "A film"); ("overview", JStr "Plot");
        ("poster_path", JStr "/p.jpg"); ("release_date", JStr "2020-01-01");
        ("vote_average", JNum 7); ("runtime", JNum 120)].

(** The upstream lookup for 202 fails, the others succeed. *)
Definition sample_tmdb (id : Z) : option JsVal :=
  if Z.eqb id 202 then None else Some (sample_detail id).

Definition sample_summary (id added : Z) : JsVal :=
  JObj [("id", JNum id); ("title", JStr "A film"); ("overview", JStr "Plot");
        ("poster_path", JStr "/p.jpg"); ("release_date", JStr "2020-01-01");
        ("vote_average", JNum 7); ("addedAt", JDate added)].

(** A schema cast that, like Mongoose's, turns the numeric string
    "101" into the number 101. *)
Definition cast_numeric_string (v : JsVal) : option Z :=
  match v with
  | JStr s => if String.eqb s "101" then Some 101 else None
  | _ => None
  end.

Definition sample_film (id : Z) : JsVal :=
  JObj [("id", JNum id); ("title", JStr "A film"); ("adult", JBool false)].

Definition sample_page : JsVal :=
  JObj [("page", JNum 2);
        ("results", JArr [sample_film 11; sample_film 12; sample_film 13]);
        ("total_pages", JNum 9); ("total_results", JNum 170)].

(** Twelve cast members, no crew list content, no similar section. *)
Definition sample_movie : JsVal :=
  JObj [("id", JNum 11); ("title", JStr "A film");
        ("credits", JObj [("cast", JArr (JNum <$> [1;2;3;4;5;6;7;8;9;10;11;12]));
                          ("crew", JArr [])]);
        ("videos", JObj [("results", JArr [JStr "trailer"])])].

Definition sample_catalogue (path : string) (params : list (string * JsVal))
  : Thrown + JsVal :=
  if String.eqb path "/search/movie" then inr sample_page
  else if String.eqb path "/movie/popular" then inr sample_page
  else if String.eqb path "/movie/11" then inr sample_movie
  else inl (AxiosFailure
              (JObj [("status", JNum 404);
                     ("data", JObj [("status_message",
                                     JStr "The resource could not be found.")])])
              "Request failed with status code 404").

(** A catalogue that knows only the plain fields of a movie. *)
Definition sample_bare_catalogue (path : string)
  (params : list (string * JsVal)) : Thrown + JsVal :=
  inr (JObj [("id", JNum 5); ("title", JStr "Bare")]).

Definition sample_type_error (v : JsVal) (k : string) : string :=
  "Cannot read properties of undefined (reading '" +:+ k +:+ "')".

(** A verifier that accepts the token [sample_sign] issues and
    yields the claims of a user registered as number 8. *)
Definition sample_verify_issued (token secret : string) (t : Z) : option JsVal :=
  if String.eqb token ("token-for-" +:+ secret)
  then Some (JObj [("userId", JStr "000000000000000000000008");
                   ("email", JStr "b@x.com");
                   ("iat", JNum 5); ("exp", JNum 604805)])
  else None.

Definition no_cast_string (v : JsVal) : option string := None.
Definition no_cast_number (v : JsVal) : option Z := None.
Definition sample_message (e : Exn) : string := "error".

Definition sample_mac (secret : string) (p : SessionToken.Payload) : string :=
  secret +:+ "/" +:+ SessionToken.claim_email (SessionToken.claims p).

(** ** The server *)

Section Server.

(** The libraries and services the server calls, and the environment. *)

(** [process.env.JWT_SECRET] *)
Variable JWT_SECRET : string.

(** [jwt.sign(payload, secret, { expiresIn })] at a given time. *)
Variable jwt_sign : JsVal -> string -> string -> Z -> string.

(** [jwt.verify(token, secret)] at a given time; [None] when it throws.
    What it returns is the payload decoded from JSON: an identifier
    that was signed comes back as its hexadecimal string, next to the
    dates the library added. *)
Variable jwt_verify : string -> string -> Z -> option JsVal.

(** [bcrypt.hash(plain, cost)] with the salt it draws. *)
Variable bcrypt_hash : string -> Z -> nat -> string.

(** [bcrypt.compare(candidate, hash)] *)
Variable bcrypt_compare : string -> string -> bool.

(** The response data of [tmdbAPI.get(`/movie/${id}`)] while the request
    runs; [None] when the call rejects. *)
Variable tmdb_get : Z -> option JsVal.

(** Mongoose's schema casting of a value that is not already of the
    path's type; [None] is a CastError. *)
Variable castStringOther : JsVal -> option string.
Variable castNumberOther : JsVal -> option Z.
Variable castObjectIdOther : JsVal -> option ObjectId.

(** [error.message] *)
Variable exn_message : Exn -> string.

Definition castString (v : JsVal) : M string :=
  match v with
  | JStr s => ret s
  | _ => lift_option CastError (castStringOther v)
  end.

Definition castNumber (v : JsVal) : M Z :=
  match v with
  | JNum n => ret n
  | _ => lift_option CastError (castNumberOther v)
  end.

(** [const { k } = v] *)
Definition destructure (v : JsVal) (k : string) : M JsVal :=
  lift_option TypeError (js_get v k).

(** *** The collection *)

Definition find_user (id : ObjectId) (us : list User) : option User :=
  List.find (fun u => Nat.eqb (_id u) id) us.

(** The ObjectId a value is cast to when it is used as an [_id]: an
    ObjectId is itself, a string (the 24 hexadecimal digits a token
    carries) and anything else go through Mongoose's cast; [undefined]
    and [null] are no identifier. *)
Definition castObjectId (v : JsVal) : option ObjectId :=
  match v with
  | JOid o => Some o
  | JUndefined | JNull => None
  | _ => castObjectIdOther v
  end.

(** [User.findById(id)]: [undefined] and [null] find nothing, a value
    that does not cast to an ObjectId is a CastError. *)
Definition findById (id : JsVal) : M (option Doc) :=
  do* log (EvFindById id) in
  match id with
  | JUndefined | JNull => ret None
  | _ =>
      let* o := lift_option CastError (castObjectId id) in
      fun w => (inr (hydrate <$> find_user o (store w)), w)
  end.

Definition matches (q : Query) (u : User) : bool :=
  match q with
  | QEmail e => String.eqb (email u) e
  | QEmailOrUsername e n => String.eqb (email u) e || String.eqb (username u) n
  end.

(** [User.findOne(q)]: the first match in collection order.  The values
    of a filter are strings: those the body carries, or what the schema
    casts them to; a body value that is a query-operator object is not
    told apart from any other value that is not a string. *)
Definition findOne (q : Query) : M (option Doc) :=
  do* log (EvFindOne q) in
  fun w => (inr (hydrate <$> List.find (matches q) (store w)), w).

(** [new User({ username, email, password })] *)
Definition new_User (usernameV emailV passwordV : JsVal) : M Doc :=
  let* u := castString usernameV in
  let* e := castString emailV in
  let* p := castString passwordV in
  fun w =>
    (inr (mkDoc (next_oid w) u e (Some p) [] [] true
                ["username"; "email"; "password"]),
     mkWorld (store w) (clock w) (S (next_oid w)) (next_salt w) (trace w)).

Definition bcrypt_hash_call (plain : option string) (cost : Z) : M string :=
  match plain with
  | None => throw BcryptError
  | Some s =>
      do* log (EvBcryptHash s) in
      fun w =>
        (inr (bcrypt_hash s cost (next_salt w)),
         mkWorld (store w) (clock w) (next_oid w) (S (next_salt w)) (trace w))
  end.

Definition set_password (d : Doc) (p : string) : Doc :=
  markModified "password"
    (mkDoc (doc_id d) (doc_username d) (doc_email d) (Some p)
           (doc_favorites d) (doc_watchlists d) (doc_isNew d) (doc_modified d)).

(** [userSchema.pre('save', ...)] *)
Definition pre_save (this : Doc) : M Doc :=
  if negb (isModified this "password") then ret this
  else
    let* hash := bcrypt_hash_call (doc_password this) 12 in
    ret (set_password this hash).

(** [required: true] on the paths that are validated on save. *)
Definition required_ok (d : Doc) (path : string) (v : option string) : bool :=
  negb (doc_isNew d || isModified d path)
  || match v with Some s => negb (String.eqb s "") | None => false end.

Definition validate (d : Doc) : M unit :=
  if required_ok d "username" (Some (doc_username d))
     && required_ok d "email" (Some (doc_email d))
     && required_ok d "password" (doc_password d)
  then ret tt else throw ValidationError.

Definition persisted (d : Doc) : Doc :=
  mkDoc (doc_id d) (doc_username d) (doc_email d) (doc_password d)
        (doc_favorites d) (doc_watchlists d) false [].

(** Insertion of a new document; both [unique: true] indexes are
    enforced by the collection. *)
Definition insert (d : Doc) : M Doc :=
  do* log (EvInsert (doc_id d)) in
  fun w =>
    if existsb (fun u => String.eqb (username u) (doc_username d)
                         || String.eqb (email u) (doc_email d)) (store w)
    then (inl DuplicateKeyError, w)
    else
      match doc_password d with
      | None => (inl ValidationError, w)
      | Some p =>
          (inr (persisted d),
           mkWorld (store w ++ [mkUser (doc_id d) (doc_username d) (doc_email d) p
                                       (doc_favorites d) (doc_watchlists d)
                                       (clock w) (clock w)])
                   (clock w) (next_oid w) (next_salt w) (trace w))
      end.

(** The stored user after the modified paths of [d] are written. *)
Definition apply_doc (t : Z) (d : Doc) (u : User) : User :=
  mkUser (_id u)
    (if isModified d "username" then doc_username d else username u)
    (if isModified d "email" then doc_email d else email u)
    (if isModified d "password" then default (password u) (doc_password d)
     else password u)
    (if isModified d "favorites" then doc_favorites d else favorites u)
    (if isModified d "watchlists" then doc_watchlists d else watchlists u)
    (createdAt u) t.

Fixpoint update_first (id : ObjectId) (f : User -> User) (us : list User)
  : list User :=
  match us with
  | [] => []
  | u :: rest =>
      if Nat.eqb (_id u) id then f u :: rest else u :: update_first id f rest
  end.

(** Saving a loaded document writes its modified paths, if any. *)
Definition update (d : Doc) : M Doc :=
  match doc_modified d with
  | [] => ret d
  | _ :: _ =>
      do* log (EvUpdate (doc_id d)) in
      fun w =>
        match find_user (doc_id d) (store w) with
        | None => (inl DocumentNotFoundError, w)
        | Some _ =>
            (inr (persisted d),
             mkWorld (update_first (doc_id d) (apply_doc (clock w) d) (store w))
                     (clock w) (next_oid w) (next_salt w) (trace w))
        end
  end.

(** [doc.save()]: validation, then the pre-save hook, then the write. *)
Definition save (d : Doc) : M Doc :=
  do* validate d in
  let* d' := pre_save d in
  if doc_isNew d' then insert d' else update d'.

(** [userSchema.methods.comparePassword] *)
Definition comparePassword (this : Doc) (candidatePassword : JsVal) : M bool :=
  match candidatePassword, doc_password this with
  | JStr c, Some h =>
      do* log (EvBcryptCompare c h) in ret (bcrypt_compare c h)
  | _, _ => throw BcryptError
  end.

(** [jwt.sign({ userId: user._id, email: user.email }, secret, { expiresIn: '7d' })] *)
Definition sign_token (user : Doc) : M string :=
  let payload := JObj [("userId", JOid (doc_id user));
                       ("email", JStr (doc_email user))] in
  do* log (EvJwtSign payload) in
  let* t := now in
  ret (jwt_sign payload JWT_SECRET "7d" t).

(** *** Authentication middleware *)

(** [req.headers.authorization?.split(' ')[1]] *)
Definition bearer_token (authorization : option string) : option string :=
  h ← authorization; nth_error (split " " h) 1.

(** [!token] for a string or [undefined]. *)
Definition token_missing (token : option string) : bool :=
  match token with
  | None => true
  | Some t => String.eqb t ""
  end.

(** The middleware either replies itself ([inl]) or sets [req.user] and
    calls [next()] ([inr]). *)
Definition authenticateToken (authorization : option string)
  : M (Response + Doc) :=
  let token := bearer_token authorization in
  if token_missing token
  then ret (inl (failure 401 "Access token required"))
  else
    try_catch
      (do* log (EvJwtVerify (default "" token)) in
       let* t := now in
       let* decoded := lift_option JsonWebTokenError
                         (jwt_verify (default "" token) JWT_SECRET t) in
       let* userId := lift_option TypeError (js_get decoded "userId") in
       let* found := findById userId in
       match found with
       | None => ret (inl (failure 401 "Invalid token"))
       | Some user => ret (inr (select_minus_password user))
       end)
      (fun error => ret (inl (failure 401 "Invalid token"))).

(** *** POST /api/auth/register *)

Definition public_user (user : Doc) : JsVal :=
  JObj [("id", JOid (doc_id user));
        ("username", JStr (doc_username user));
        ("email", JStr (doc_email user))].

Definition register (req_body : JsVal) : M Response :=
  try_catch
    (let* usernameV := destructure req_body "username" in
     let* emailV := destructure req_body "email" in
     let* passwordV := destructure req_body "password" in
     if negb (js_truthy usernameV) || negb (js_truthy emailV)
        || negb (js_truthy passwordV)
     then ret (failure 400 "All fields are required")
     else
       let* e := castString emailV in
       let* u := castString usernameV in
       let* existingUser := findOne (QEmailOrUsername e u) in
       match existingUser with
       | Some _ =>
           ret (failure 400 "User already exists with this email or username")
       | None =>
           let* user := new_User usernameV emailV passwordV in
           let* user := save user in
           let* token := sign_token user in
           ret (mkResponse 201
                  (JObj [("success", JBool true);
                         ("message", JStr "User registered successfully");
                         ("user", public_user user);
                         ("token", JStr token)]))
       end)
    (fun error =>
       ret (failure_with 500 "Registration failed" (exn_message error))).

(** *** POST /api/auth/login *)

Definition login (req_body : JsVal) : M Response :=
  try_catch
    (let* emailV := destructure req_body "email" in
     let* passwordV := destructure req_body "password" in
     if negb (js_truthy emailV) || negb (js_truthy passwordV)
     then ret (failure 400 "Email and password are required")
     else
       let* e := castString emailV in
       let* found := findOne (QEmail e) in
       match found with
       | None => ret (failure 401 "Invalid email or password")
       | Some user =>
           let* isValidPassword := comparePassword user passwordV in
           if negb isValidPassword
           then ret (failure 401 "Invalid email or password")
           else
             let* token := sign_token user in
             ret (mkResponse 200
                    (JObj [("success", JBool true);
                           ("message", JStr "Login successful");
                           ("user", public_user user);
                           ("token", JStr token)]))
       end)
    (fun error => ret (failure_with 500 "Login failed" (exn_message error))).

(** *** GET /api/users/favorites *)

(** The object built from a detail response and the favorite it is for. *)
Definition movie_summary (data : JsVal) (fav : Favorite) : option JsVal :=
  id ← js_get data "id";
  title ← js_get data "title";
  overview ← js_get data "overview";
  poster_path ← js_get data "poster_path";
  release_date ← js_get data "release_date";
  vote_average ← js_get data "vote_average";
  Some (JObj [("id", id); ("title", title); ("overview", overview);
              ("poster_path", poster_path); ("release_date", release_date);
              ("vote_average", vote_average);
              ("addedAt", JDate (addedAt fav))]).

(** The callback mapped over [user.favorites]: [null] on any error. *)
Definition fetch_favorite (fav : Favorite) : M JsVal :=
  try_catch
    (do* log (EvTmdbGet (movieId fav)) in
     let* data := lift_option AxiosError (tmdb_get (movieId fav)) in
     lift_option TypeError (movie_summary data fav))
    (fun error => ret JNull).

Definition get_favorites (req_user : Doc) : M Response :=
  try_catch
    (let* found := findById (JOid (doc_id req_user)) in
     let* user := lift_option TypeError found in
     let* favoriteMovies := mapM_M fetch_favorite (doc_favorites user) in
     ret (mkResponse 200
            (JObj [("success", JBool true);
                   ("favorites", JArr (List.filter js_truthy favoriteMovies))])))
    (fun error => ret (failure 500 "Error fetching favorites")).

(** *** POST /api/users/favorites *)

(** [user.favorites.push({ movieId })]: the subdocument casts
    [movieId] to a Number and takes [Date.now] as [addedAt]. *)
Definition push_favorite (user : Doc) (movieIdV : JsVal) : M Doc :=
  let* n := castNumber movieIdV in
  let* t := now in
  ret (markModified "favorites"
         (mkDoc (doc_id user) (doc_username user) (doc_email user)
                (doc_password user)
                (doc_favorites user ++ [mkFavorite n t])
                (doc_watchlists user) (doc_isNew user) (doc_modified user))).

Definition add_favorite (req_user : Doc) (req_body : JsVal) : M Response :=
  try_catch
    (let* movieIdV := destructure req_body "movieId" in
     if negb (js_truthy movieIdV)
     then ret (failure 400 "Movie ID is required")
     else
       let* found := findById (JOid (doc_id req_user)) in
       let* user := lift_option TypeError found in
       let alreadyFavorite :=
         existsb (fun fav => js_strict_eq (JNum (movieId fav)) movieIdV)
                 (doc_favorites user) in
       if alreadyFavorite
       then ret (failure 400 "Movie already in favorites")
       else
         let* user := push_favorite user movieIdV in
         do* save user in
         ret (mkResponse 200
                (JObj [("success", JBool true);
                       ("message", JStr "Movie added to favorites")])))
    (fun error => ret (failure 500 "Error adding to favorites")).

(** *** Routes *)

(** [app.METHOD(path, authenticateToken, handler)] *)
Definition authenticated (authorization : option string)
  (handler : Doc -> M Response) : M Response :=
  let* gate := authenticateToken authorization in
  match gate with
  | inl reply => ret reply
  | inr req_user => handler req_user
  end.

Inductive Request :=
| PostRegister (req_body : JsVal)
| PostLogin (req_body : JsVal)
| GetFavorites (authorization : option string)
| PostFavorites (authorization : option string) (req_body : JsVal).

Definition serve (r : Request) : M Response :=
  match r with
  | PostRegister b => register b
  | PostLogin b => login b
  | GetFavorites a => authenticated a get_favorites
  | PostFavorites a b => authenticated a (fun u => add_favorite u b)
  end.

(** ** Vocabulary of the specification *)

(** A header "of the form Bearer <token>". *)
Definition bearer_form (h : string) : Prop :=
  exists tok, tok <> "" /\ h = "Bearer " +:+ tok.

(** The header carries nothing in the place the middleware reads the
    token from: it is absent, or splitting it at spaces leaves no second
    segment, or an empty one. *)
Definition no_token_segment (authorization : option string) : Prop :=
  match authorization with
  | None => True
  | Some h =>
      nth_error (split " " h) 1 = None \/ nth_error (split " " h) 1 = Some ""
  end.

(** The stored user a decoded payload's [userId] claim refers to: the
    first one whose identifier the claim casts to. *)
Definition claimed_user (decoded : JsVal) (us : list User) : option User :=
  userId ← js_get decoded "userId";
  o ← castObjectId userId;
  find_user o us.

(** The detail the catalogue has for a favorite, when the call succeeds
    and its data is neither [undefined] nor [null]. *)
Definition upstream_detail (fav : Favorite) : option JsVal :=
  match tmdb_get (movieId fav) with
  | Some data => if nullish data then None else Some data
  | None => None
  end.

(** The summary the listing is to hold for a favorite with that
    detail: six fields of the detail and the favorite's own date. *)
Definition expected_summary (data : JsVal) (fav : Favorite) : JsVal :=
  JObj [("id", js_get_optional data "id");
        ("title", js_get_optional data "title");
        ("overview", js_get_optional data "overview");
        ("poster_path", js_get_optional data "poster_path");
        ("release_date", js_get_optional data "release_date");
        ("vote_average", js_get_optional data "vote_average");
        ("addedAt", JDate (addedAt fav))].

Definition expected_listing (favs : list Favorite) : list JsVal :=
  omap (fun fav => (fun data => expected_summary data fav)
                     <$> upstream_detail fav) favs.

(** Calls that only read. *)
Definition read_only (e : Event) : Prop :=
  match e with
  | EvFindById _ | EvFindOne _ | EvJwtVerify _ => True
  | _ => False
  end.

(** The world after some more calls were logged and nothing else
    changed. *)
Definition logged (w : World) (evs : list Event) : World :=
  mkWorld (store w) (clock w) (next_oid w) (next_salt w) (trace w ++ evs).

(** The summary a favorite resolves to: the upstream call succeeds
    and its data can be read. *)
Definition resolved (fav : Favorite) : option JsVal :=
  data ← tmdb_get (movieId fav); movie_summary data fav.

(** No movie identifier occurs twice in a user's favorites. *)
Definition favorites_unique (us : list User) : Prop :=
  Forall (fun u => NoDup (movieId <$> favorites u)) us.

(** How many favorites of [u] are for movie [m]. *)
Definition entries_for (m : Z) (u : User) : nat :=
  length (List.filter (fun fav => Z.eqb (movieId fav) m) (favorites u)).

(** The stored user once a favorite for [m] was appended at time [t]. *)
Definition with_favorite (t m : Z) (u : User) : User :=
  mkUser (_id u) (username u) (email u) (password u)
         (favorites u ++ [mkFavorite m t]) (watchlists u) (createdAt u) t.

(** The movieId sent with an add-favorite request, when there is a
    truthy one, is a JSON number. *)
Definition integer_movieId (r : Request) : Prop :=
  match r with
  | PostFavorites _ b =>
      forall v, js_get b "movieId" = Some v -> js_truthy v = true ->
                exists n, v = JNum n
  | _ => True
  end.

(** The kind of work a logged call stands for. *)
Inductive Call := StoreCall | BcryptCall | JwtCall | CatalogCall.

Definition call_of (e : Event) : Call :=
  match e with
  | EvFindById _ | EvFindOne _ | EvInsert _ | EvUpdate _ => StoreCall
  | EvBcryptHash _ | EvBcryptCompare _ _ => BcryptCall
  | EvJwtSign _ | EvJwtVerify _ => JwtCall
  | EvTmdbGet _ => CatalogCall
  end.

(** Two runs did the same work: the same kinds of calls, in the same
    order.  Runs that differ in a bcrypt call differ in running time by
    the cost of that call. *)
Definition same_calls (w1 w2 : World) : Prop :=
  call_of <$> trace w1 = call_of <$> trace w2.

(** Running [m] keeps the invariant [I] of the collection, whether it
    returns or throws, and what it returns satisfies [Q]. *)
Definition maintains {A} (I : list User -> Prop) (m : M A) (Q : A -> Prop)
  : Prop :=
  forall w, I (store w) ->
            I (store (snd (m w))) /\ forall a, fst (m w) = inr a -> Q a.

(** [m], started in a world satisfying [P], either returns a value and
    a world satisfying [Q], or throws in a world satisfying [E]. *)
Definition triple {A} (P : World -> Prop) (m : M A)
  (Q : A -> World -> Prop) (E : World -> Prop) : Prop :=
  forall w, P w ->
            match m w with
            | (inr a, w') => Q a w'
            | (inl _, w') => E w'
            end.

(** The collection is [us]. *)
Definition keeps (us : list User) (w : World) : Prop := store w = us.

(** The JSON envelope of every reply: one of the five status codes the
    server uses, and a boolean [success] that tells whether the status
    is below 400. *)
Definition envelope (r : Response) : Prop :=
  (status r = 200 \/ status r = 201 \/ status r = 400 \/ status r = 401
   \/ status r = 500) /\
  js_get (body r) "success" = Some (JBool (Z.ltb (status r) 400)).

(** Everything of a stored user but the favorites and [updatedAt]. *)
Definition credentials (u : User)
  : ObjectId * string * string * string * list Watchlist * Z :=
  (_id u, username u, email u, password u, watchlists u, createdAt u).

(** No two stored users share a username or an email. *)
Definition unique_accounts (us : list User) : Prop :=
  NoDup (username <$> us) /\ NoDup (email <$> us).

(** [us'] is [us], or [us] followed by one new user who has no
    favorites and no watchlists and whose username and email no user of
    [us] has. *)
Definition at_most_appended (us us' : list User) : Prop :=
  us' = us \/
  exists u, us' = us ++ [u] /\ favorites u = [] /\ watchlists u = [] /\
            Forall (fun x => username x <> username u /\ email x <> email u) us.

(** [us'] is [us], or [us] with the first user of identifier [id]
    replaced by one with the same credentials. *)
Definition at_most_touched (id : ObjectId) (us us' : list User) : Prop :=
  us' = us \/
  exists f, (forall u, credentials (f u) = credentials u) /\
            us' = update_first id f us.

(** ** Properties *)

Ltac unfold_monad :=
  unfold bind, ret, throw, try_catch, log, now, lift_option, logged.

Ltac msimpl := repeat (progress (unfold_monad; simpl)).

Example split_bearer : split " " "Bearer abc.def" = ["Bearer"; "abc.def"].
Proof. reflexivity. Qed.

Example split_no_space : split " " "Bearer" = ["Bearer"].
Proof. reflexivity. Qed.

Example split_two_spaces : split " " "Bearer  abc" = ["Bearer"; ""; "abc"].
Proof. reflexivity. Qed.

Example split_empty : split " " "" = [""].
Proof. reflexivity. Qed.

Example bearer_token_examples :
  bearer_token None = None /\
  bearer_token (Some "Bearer") = None /\
  bearer_token (Some "Bearer ") = Some "" /\
  bearer_token (Some "Bearer abc") = Some "abc" /\
  bearer_token (Some "Token abc def") = Some "abc".
Proof. repeat split. Qed.

Example js_truthy_examples :
  js_truthy JUndefined = false /\ js_truthy JNull = false /\
  js_truthy (JStr "") = false /\ js_truthy (JNum 0) = false /\
  js_truthy (JBool false) = false /\
  js_truthy (JStr "0") = true /\ js_truthy (JNum 5) = true /\
  js_truthy (JObj []) = true /\ js_truthy (JArr []) = true.
Proof. repeat split. Qed.

Example js_strict_eq_examples :
  js_strict_eq (JNum 5) (JNum 5) = true /\
  js_strict_eq (JNum 5) (JStr "5") = false /\
  js_strict_eq (JNum 0) JNull = false.
Proof. repeat split. Qed.

Lemma logged_nil w : logged w [] = w.
Proof. destruct w; unfold logged; simpl. by rewrite app_nil_r. Qed.

Lemma logged_app w evs evs' : logged (logged w evs) evs' = logged w (evs ++ evs').
Proof. unfold logged; simpl. by rewrite app_assoc. Qed.

Lemma findById_run id w :
  findById id w =
    (match castObjectId id with
     | Some o => inr (hydrate <$> find_user o (store w))
     | None => if nullish id then inr None else inl CastError
     end, logged w [EvFindById id]).
Proof.
  unfold findById; unfold_monad.
  destruct id; try done; simpl; by destruct (castObjectIdOther _).
Qed.

Lemma findById_oid o w :
  findById (JOid o) w =
    (inr (hydrate <$> find_user o (store w)), logged w [EvFindById (JOid o)]).
Proof. by rewrite findById_run. Qed.

Lemma token_missing_spec authorization :
  token_missing (bearer_token authorization) = true <-> no_token_segment authorization.
Proof.
  unfold token_missing, bearer_token, no_token_segment.
  destruct authorization as [h|]; [|done].
  cbn [mbind option_bind].
  destruct (nth_error (split " " h) 1) as [t|].
  - rewrite String.eqb_eq. split.
    + intros ->. by right.
    + intros [?|[= ->]]; done.
  - split; [by left|done].
Qed.

(** The middleware's run on a header that carries a token. *)
Lemma authenticateToken_run authorization tok w :
  bearer_token authorization = Some tok -> tok <> "" ->
  authenticateToken authorization w =
    match jwt_verify tok JWT_SECRET (clock w) with
    | None => (inr (inl (failure 401 "Invalid token")), logged w [EvJwtVerify tok])
    | Some decoded =>
        match js_get decoded "userId" with
        | None => (inr (inl (failure 401 "Invalid token")),
                   logged w [EvJwtVerify tok])
        | Some userId =>
            (inr (match claimed_user decoded (store w) with
                  | None => inl (failure 401 "Invalid token")
                  | Some u => inr (select_minus_password (hydrate u))
                  end),
             logged w [EvJwtVerify tok; EvFindById userId])
        end
    end.
Proof.
  intros Htok Hne. unfold authenticateToken. rewrite Htok. simpl.
  apply String.eqb_neq in Hne. rewrite Hne.
  msimpl.
  destruct (jwt_verify tok JWT_SECRET (clock w)) as [decoded|]; [|done].
  unfold claimed_user.
  destruct (js_get decoded "userId") as [userId|]; [|done].
  cbn [mbind option_bind].
  msimpl. rewrite findById_run. cbn [store].
  destruct (castObjectId userId) as [o|]; msimpl; rewrite <- app_assoc; simpl.
  - destruct (find_user o (store w)); done.
  - by destruct (nullish userId).
Qed.

Lemma authenticateToken_no_token authorization w :
  token_missing (bearer_token authorization) = true ->
  authenticateToken authorization w =
    (inr (inl (failure 401 "Access token required")), w).
Proof. intros H. unfold authenticateToken. by rewrite H. Qed.

(** C2 (as amended): when the Authorization header is absent, or has no
    second space-separated segment, or an empty one, the middleware
    replies 401 "Access token required" and the world, call log
    included, is left as it was: neither the token verifier nor the
    store is called. *)
Theorem authenticateToken_requires_token authorization w :
  no_token_segment authorization ->
  authenticateToken authorization w =
    (inr (inl (failure 401 "Access token required")), w).
Proof.
  intros H. apply token_missing_spec in H.
  by apply authenticateToken_no_token.
Qed.

Lemma authenticateToken_verified authorization tok decoded w :
  bearer_token authorization = Some tok -> tok <> "" ->
  jwt_verify tok JWT_SECRET (clock w) = Some decoded ->
  fst (authenticateToken authorization w) =
    inr (match claimed_user decoded (store w) with
         | None => inl (failure 401 "Invalid token")
         | Some u => inr (select_minus_password (hydrate u))
         end).
Proof.
  intros Htok Hne Hv. rewrite (authenticateToken_run _ _ _ Htok Hne), Hv.
  unfold claimed_user. by destruct (js_get decoded "userId").
Qed.

(** C3: on a header that carries a token, the middleware replies 401
    "Invalid token" exactly when verification fails or the identifier
    the verified userId claim casts to is that of no stored user (or
    the claim is missing or does not cast); otherwise it calls next
    with the user of that identifier: the same identifier, username,
    email, favorites and watchlists, and no password. *)
Theorem authenticateToken_with_token authorization tok w :
  bearer_token authorization = Some tok -> tok <> "" ->
  let outcome := fst (authenticateToken authorization w) in
  let names decoded u :=
    exists userId o, js_get decoded "userId" = Some userId /\
                     castObjectId userId = Some o /\
                     find_user o (store w) = Some u in
  (outcome = inr (inl (failure 401 "Invalid token")) <->
     jwt_verify tok JWT_SECRET (clock w) = None \/
     exists decoded, jwt_verify tok JWT_SECRET (clock w) = Some decoded /\
                     ~ exists u, names decoded u) /\
  (forall decoded u,
     jwt_verify tok JWT_SECRET (clock w) = Some decoded ->
     names decoded u ->
     outcome = inr (inr (mkDoc (_id u) (username u) (email u) None
                               (favorites u) (watchlists u) false []))) /\
  (forall reply, outcome = inr (inl reply) ->
                 reply = failure 401 "Invalid token").
Proof.
  intros Htok Hne outcome names. subst outcome.
  assert (Hnames : forall decoded u,
            claimed_user decoded (store w) = Some u <-> names decoded u).
  { intros decoded u. unfold claimed_user, names.
    destruct (js_get decoded "userId") as [userId|]; cbn [mbind option_bind].
    - destruct (castObjectId userId) as [o|] eqn:Hc; cbn [mbind option_bind].
      + split; [intros Hu; by exists userId, o|].
        intros (v & o' & [= <-] & Hc' & Hu). congruence.
      + split; [done|]. intros (v & o' & [= <-] & Hc' & _). congruence.
    - split; [done|]. by intros (v & o' & Hv' & _). }
  destruct (jwt_verify tok JWT_SECRET (clock w)) as [decoded|] eqn:Hv.
  - rewrite (authenticateToken_verified _ _ _ _ Htok Hne Hv).
    split; [|split].
    + split.
      * intros Heq. right. exists decoded. split; [done|].
        intros [u Hu]. apply Hnames in Hu. by rewrite Hu in Heq.
      * intros [?|(d & [= <-] & Hnone)]; [done|].
        destruct (claimed_user decoded (store w)) as [u|] eqn:Hu; [|done].
        destruct Hnone. exists u. by apply Hnames.
    + intros d u [= <-] Hu. apply Hnames in Hu. by rewrite Hu.
    + intros reply Hreply.
      destruct (claimed_user decoded (store w)); congruence.
  - rewrite (authenticateToken_run _ _ _ Htok Hne), Hv.
    split; [split; [by left|done]|]. split; [intros; discriminate|].
    by intros reply [= <-].
Qed.

Lemma authenticateToken_world authorization w :
  exists evs,
    snd (authenticateToken authorization w) = logged w evs /\
    Forall read_only evs /\
    store (snd (authenticateToken authorization w)) = store w.
Proof.
  destruct (token_missing (bearer_token authorization)) eqn:Hm.
  - rewrite (authenticateToken_no_token _ _ Hm).
    exists []. by rewrite logged_nil.
  - unfold token_missing in Hm.
    destruct (bearer_token authorization) as [tok|] eqn:Htok; [|done].
    apply String.eqb_neq in Hm.
    rewrite (authenticateToken_run _ _ _ Htok Hm).
    destruct (jwt_verify tok JWT_SECRET (clock w)) as [decoded|].
    + destruct (js_get decoded "userId") as [userId|]; simpl.
      * eexists. split; [done|]. split; [|done].
        repeat constructor.
      * eexists. split; [done|]. split; [|done]. repeat constructor.
    + eexists. split; [done|]. split; [|done]. repeat constructor.
Qed.

(** C9: whatever the header, and whether the request is let through or
    rejected, the middleware leaves the user collection (and the clock
    and the generators) as they were; all it adds to the call log are
    reads. *)
Theorem authenticateToken_reads_only authorization w :
  exists evs,
    snd (authenticateToken authorization w) = logged w evs /\
    Forall read_only evs /\
    store (snd (authenticateToken authorization w)) = store w /\
    forall id, find_user id (store (snd (authenticateToken authorization w)))
               = find_user id (store w).
Proof.
  destruct (authenticateToken_world authorization w) as (evs & Hw & Hro & Hst).
  exists evs. repeat split; try done. intros id. by rewrite Hst.
Qed.

(** *** Favorites listing *)

Lemma fetch_favorite_run fav w :
  fetch_favorite fav w =
    (inr (default JNull (resolved fav)), logged w [EvTmdbGet (movieId fav)]).
Proof.
  unfold fetch_favorite, resolved. msimpl.
  destruct (tmdb_get (movieId fav)) as [data|]; [|done]. msimpl.
  by destruct (movie_summary data fav).
Qed.

Lemma mapM_fetch_favorite favs w :
  mapM_M fetch_favorite favs w =
    (inr ((fun fav => default JNull (resolved fav)) <$> favs),
     logged w ((fun fav => EvTmdbGet (movieId fav)) <$> favs)).
Proof.
  revert w. induction favs as [|fav favs IH]; intros w.
  - simpl. unfold ret. by rewrite logged_nil.
  - simpl. unfold bind at 1. rewrite fetch_favorite_run.
    unfold bind at 1. rewrite IH. unfold ret. by rewrite logged_app.
Qed.

Lemma movie_summary_object data fav s :
  movie_summary data fav = Some s ->
  js_truthy s = true /\ js_get s "addedAt" = Some (JDate (addedAt fav)).
Proof.
  unfold movie_summary. intros H.
  repeat match type of H with
         | (?m ≫= _) = Some _ => destruct m; simpl in H; [|discriminate]
         end.
  by injection H as <-.
Qed.

Lemma resolved_object fav s :
  resolved fav = Some s ->
  js_truthy s = true /\ js_get s "addedAt" = Some (JDate (addedAt fav)).
Proof.
  unfold resolved. destruct (tmdb_get (movieId fav)) as [data|]; [|done].
  apply movie_summary_object.
Qed.

(** [.filter(Boolean)] keeps exactly the resolved summaries. *)
Lemma filter_Boolean_resolved favs :
  List.filter js_truthy ((fun fav => default JNull (resolved fav)) <$> favs)
  = omap resolved favs.
Proof.
  induction favs as [|fav favs IH]; [done|].
  csimpl. destruct (resolved fav) as [s|] eqn:Hr; csimpl.
  - apply resolved_object in Hr as [-> _]. by rewrite IH.
  - done.
Qed.

Lemma omap_resolved_kept favs :
  Forall2 (fun fav s => resolved fav = Some s /\
                        js_get s "addedAt" = Some (JDate (addedAt fav)))
          (filter (fun fav => is_Some (resolved fav)) favs)
          (omap resolved favs).
Proof.
  induction favs as [|fav favs IH]; [constructor|].
  rewrite filter_cons. csimpl.
  destruct (resolved fav) as [s|] eqn:Hr.
  - rewrite decide_True by eauto. constructor; [|done].
    split; [done|]. by apply resolved_object in Hr as [_ ?].
  - rewrite decide_False; [done|]. by intros [? ?].
Qed.

Lemma resolved_expected fav :
  resolved fav = (fun data => expected_summary data fav) <$> upstream_detail fav.
Proof.
  unfold resolved, upstream_detail.
  destruct (tmdb_get (movieId fav)) as [data|]; [|done].
  by destruct data.
Qed.

Lemma omap_resolved_expected favs : omap resolved favs = expected_listing favs.
Proof.
  unfold expected_listing. induction favs as [|fav favs IH]; [done|].
  csimpl. by rewrite resolved_expected, IH.
Qed.

Lemma upstream_detail_Some fav data :
  upstream_detail fav = Some data <->
  tmdb_get (movieId fav) = Some data /\ nullish data = false.
Proof.
  unfold upstream_detail.
  destruct (tmdb_get (movieId fav)) as [data'|]; [|by split; [|intros []]].
  destruct (nullish data') eqn:Hn.
  - split; [done|]. intros [[= ->] ?]. congruence.
  - split; [by intros [= ->]|]. by intros [[= ->] _].
Qed.

Lemma expected_listing_kept favs :
  Forall2 (fun fav s => exists data,
             tmdb_get (movieId fav) = Some data /\ nullish data = false /\
             s = expected_summary data fav)
          (filter (fun fav => is_Some (upstream_detail fav)) favs)
          (expected_listing favs).
Proof.
  unfold expected_listing.
  induction favs as [|fav favs IH]; [constructor|].
  rewrite filter_cons. csimpl.
  destruct (upstream_detail fav) as [data|] eqn:Hd.
  - rewrite decide_True by eauto. csimpl. constructor; [|done].
    apply upstream_detail_Some in Hd as [? ?]. by exists data.
  - rewrite decide_False; [done|]. by intros [? ?].
Qed.

(** C1: for the favorites list of the requesting user, the handler
    replies 200 with exactly the summaries of the favorites the
    catalogue resolves, in list order.  A favorite is kept exactly when
    its upstream call succeeds with data that is neither [undefined] nor
    [null]; the kept favorites form an order-preserving sub-list of the
    stored one; the summary of a kept favorite holds the id, title,
    overview, poster_path, release_date and vote_average of the
    catalogue's detail and the favorite's own addedAt, and nothing else;
    a favorite whose call fails is dropped; and every favorite is looked
    up once, whatever happened to the others. *)
Theorem get_favorites_resolved req_user u w :
  find_user (doc_id req_user) (store w) = Some u ->
  let kept := filter (fun fav => is_Some (upstream_detail fav)) (favorites u) in
  let summaries := expected_listing (favorites u) in
  get_favorites req_user w =
    (inr (mkResponse 200 (JObj [("success", JBool true);
                                ("favorites", JArr summaries)])),
     logged w (EvFindById (JOid (doc_id req_user))
               :: ((fun fav => EvTmdbGet (movieId fav)) <$> favorites u))) /\
  sublist kept (favorites u) /\
  Forall2 (fun fav s =>
             exists data,
               tmdb_get (movieId fav) = Some data /\ nullish data = false /\
               s = JObj [("id", js_get_optional data "id");
                         ("title", js_get_optional data "title");
                         ("overview", js_get_optional data "overview");
                         ("poster_path", js_get_optional data "poster_path");
                         ("release_date", js_get_optional data "release_date");
                         ("vote_average", js_get_optional data "vote_average");
                         ("addedAt", JDate (addedAt fav))])
          kept summaries /\
  (forall fav, fav ∈ favorites u -> tmdb_get (movieId fav) = None ->
               fav ∉ kept) /\
  (forall fav data, fav ∈ favorites u ->
               tmdb_get (movieId fav) = Some data ->
               (fav ∈ kept <-> nullish data = false)).
Proof.
  intros Hu kept summaries. split; [|split; [|split; [|split]]].
  - unfold get_favorites, try_catch. unfold bind at 1.
    rewrite findById_oid, Hu. simpl. unfold bind at 1. simpl.
    unfold ret at 1. unfold bind. rewrite mapM_fetch_favorite.
    unfold ret. rewrite filter_Boolean_resolved, logged_app.
    by rewrite omap_resolved_expected.
  - apply sublist_filter.
  - apply expected_listing_kept.
  - intros fav _ Hnone Hin. apply list_elem_of_filter in Hin as [[s Hs] _].
    apply upstream_detail_Some in Hs as [Hs _]. congruence.
  - intros fav data Hin Hsome. subst kept. rewrite list_elem_of_filter. split.
    + intros [[data' Hd] _]. apply upstream_detail_Some in Hd as [Hd Hn].
      congruence.
    + intros Hn. split; [|done]. exists data. by apply upstream_detail_Some.
Qed.

(** *** Adding a favorite *)

(** C10 (as amended): when the body's movieId is falsy (absent, null,
    the empty string, the number 0, false), the handler replies 400
    "Movie ID is required" and the world, call log included, is as
    before: the store is neither read nor written, so no request whose
    movieId is the number 0 adds a favorite. *)
Theorem add_favorite_requires_movieId req_user req_body v w :
  js_get req_body "movieId" = Some v ->
  js_truthy v = false ->
  add_favorite req_user req_body w =
    (inr (failure 400 "Movie ID is required"), w).
Proof.
  intros Hget Hfalsy. unfold add_favorite, destructure. msimpl.
  rewrite Hget. msimpl. by rewrite Hfalsy.
Qed.

(** *** Persisting a user *)

Lemma update_first_fmap {B} (g : User -> B) f id us :
  (forall u, g (f u) = g u) -> g <$> update_first id f us = g <$> us.
Proof.
  intros Hg. induction us as [|u us IH]; [done|].
  simpl. destruct (Nat.eqb (_id u) id); csimpl; by rewrite ?Hg, ?IH.
Qed.

Lemma update_first_found id f us u :
  find_user id us = Some u -> f u ∈ update_first id f us.
Proof.
  unfold find_user. induction us as [|u0 us IH]; [done|].
  simpl. destruct (Nat.eqb (_id u0) id).
  - intros [= ->]. left.
  - intros H. right. by apply IH.
Qed.

Lemma update_first_length id f us :
  length (update_first id f us) = length us.
Proof.
  induction us as [|u us IH]; [done|].
  simpl. destruct (Nat.eqb (_id u) id); simpl; by rewrite ?IH.
Qed.

Lemma pre_save_run d w :
  pre_save d w =
    if isModified d "password" then
      match doc_password d with
      | Some p =>
          (inr (set_password d (bcrypt_hash p 12 (next_salt w))),
           mkWorld (store w) (clock w) (next_oid w) (S (next_salt w))
                   (trace w ++ [EvBcryptHash p]))
      | None => (inl BcryptError, w)
      end
    else (inr d, w).
Proof.
  unfold pre_save. destruct (isModified d "password"); [|done].
  simpl. unfold bcrypt_hash_call. by destruct (doc_password d).
Qed.

Lemma isModified_markModified path d : isModified (markModified path d) path = true.
Proof.
  unfold markModified. destruct (isModified d path) eqn:H.
  - exact H.
  - unfold isModified. simpl. rewrite existsb_app. simpl.
    rewrite String.eqb_refl. by rewrite orb_true_r.
Qed.

Lemma isModified_markModified_ne path path' d :
  path <> path' -> isModified (markModified path d) path' = isModified d path'.
Proof.
  intros Hne. unfold markModified. destruct (isModified d path); [done|].
  unfold isModified. simpl. rewrite existsb_app. simpl.
  apply not_eq_sym, String.eqb_neq in Hne. rewrite Hne. simpl.
  by rewrite orb_false_r.
Qed.

Lemma isModified_set_password d p : isModified (set_password d p) "password" = true.
Proof. apply isModified_markModified. Qed.

Lemma insert_run d d' w w' :
  insert d w = (inr d', w') ->
  exists p, doc_password d = Some p /\ d' = persisted d /\
    trace w' = trace w ++ [EvInsert (doc_id d)] /\
    store w' = store w ++ [mkUser (doc_id d) (doc_username d) (doc_email d) p
                                  (doc_favorites d) (doc_watchlists d)
                                  (clock w) (clock w)] /\
    existsb (fun u => String.eqb (username u) (doc_username d)
                      || String.eqb (email u) (doc_email d)) (store w) = false.
Proof.
  unfold insert. msimpl.
  destruct (existsb _ (store w)); [done|].
  destruct (doc_password d) as [p|]; [|done].
  intros [= <- <-]. by exists p.
Qed.

Lemma update_run d d' w w' :
  update d w = (inr d', w') ->
  (doc_modified d = [] /\ d' = d /\ w' = w) \/
  (doc_modified d <> [] /\ d' = persisted d /\
   trace w' = trace w ++ [EvUpdate (doc_id d)] /\
   is_Some (find_user (doc_id d) (store w)) /\
   store w' = update_first (doc_id d) (apply_doc (clock w) d) (store w)).
Proof.
  unfold update. destruct (doc_modified d) eqn:Hm.
  - intros [= <- <-]. by left.
  - unfold bind, log. cbn [store].
    destruct (find_user (doc_id d) (store w)) eqn:Hf; [|done].
    intros [= <- <-]. right. by eauto 10.
Qed.

(** C8: on every completed save, the password hashing step runs if and
    only if the password path is modified.  When it is, the plaintext
    is hashed once, with a fresh salt and cost 12, before the write, and
    it is the hash that the stored user holds; when it is not, every
    stored password is left as it was. *)
Theorem save_hashes_iff_password_modified d d' w w' :
  save d w = (inr d', w') ->
  exists evs,
    trace w' = trace w ++ evs /\
    ((exists p, EvBcryptHash p ∈ evs) <-> isModified d "password" = true) /\
    (isModified d "password" = true ->
       exists p hash,
         doc_password d = Some p /\
         hash = bcrypt_hash p 12 (next_salt w) /\
         (exists rest, evs = EvBcryptHash p :: rest /\
                       forall q, EvBcryptHash q ∉ rest) /\
         doc_password d' = Some hash /\
         exists u', u' ∈ store w' /\ _id u' = doc_id d /\ password u' = hash) /\
    (isModified d "password" = false ->
       password <$> take (length (store w)) (store w') = password <$> store w /\
       (doc_isNew d = false -> password <$> store w' = password <$> store w)).
Proof.
  unfold save, validate. unfold bind at 1.
  destruct (_ && _); [|done]. unfold ret at 1.
  unfold bind. rewrite pre_save_run.
  destruct (isModified d "password") eqn:Hmod.
  - destruct (doc_password d) as [p|] eqn:Hp; [|done].
    set (hash := bcrypt_hash p 12 (next_salt w)).
    set (d1 := set_password d hash). set (w1 := mkWorld _ _ _ _ _).
    assert (Hmod1 : isModified d1 "password" = true)
      by apply isModified_set_password.
    destruct (doc_isNew d1) eqn:Hnew.
    + intros Hins. apply insert_run in Hins
        as (p' & Hp' & -> & Htr & Hst & _).
      simpl in Hp'. injection Hp' as <-.
      exists [EvBcryptHash p; EvInsert (doc_id d)].
      split; [by rewrite Htr; simpl; rewrite <- app_assoc|].
      split; [split; [done|intros _; exists p; left]|].
      split; [|done]. intros _. exists p, hash.
      split; [done|]. split; [done|].
      split.
      { eexists. split; [done|]. intros q Hq.
        apply list_elem_of_singleton in Hq. discriminate. }
      split; [done|].
      eexists. split; [rewrite Hst; apply elem_of_app; right; left|].
      done.
    + intros Hupd. apply update_run in Hupd as [(Hnil & _)|(_ & -> & Htr & [u Hu] & Hst)].
      { exfalso. unfold isModified in Hmod1. by rewrite Hnil in Hmod1. }
      exists [EvBcryptHash p; EvUpdate (doc_id d)].
      split; [by rewrite Htr; simpl; rewrite <- app_assoc|].
      split; [split; [done|intros _; exists p; left]|].
      split; [|done]. intros _. exists p, hash.
      split; [done|]. split; [done|].
      split.
      { eexists. split; [done|]. intros q Hq.
        apply list_elem_of_singleton in Hq. discriminate. }
      split; [done|].
      exists (apply_doc (clock w1) d1 u).
      split; [rewrite Hst; by apply update_first_found|].
      split.
      * simpl. apply find_some in Hu as [_ Hid]. by apply Nat.eqb_eq in Hid.
      * simpl. by rewrite Hmod1.
  - destruct (doc_isNew d) eqn:Hnew.
    + intros Hins. apply insert_run in Hins as (p & Hp & -> & Htr & Hst & _).
      exists [EvInsert (doc_id d)]. split; [done|].
      split.
      { split; [|done]. intros [q Hq].
        apply list_elem_of_singleton in Hq. discriminate. }
      split; [done|]. intros _. split; [|done].
      rewrite Hst. by rewrite take_app_length.
    + intros Hupd. apply update_run in Hupd as [(_ & -> & ->)|(_ & -> & Htr & _ & Hst)].
      * exists []. split; [by rewrite app_nil_r|].
        split.
        { split; [|done]. intros [q Hq]. by apply not_elem_of_nil in Hq. }
        split; [done|]. intros _. split; [|done].
        by rewrite firstn_all.
      * exists [EvUpdate (doc_id d)]. split; [done|].
        split.
        { split; [|done]. intros [q Hq].
          apply list_elem_of_singleton in Hq. discriminate. }
        split; [done|]. intros _.
        assert (Hpw : password <$> store w' = password <$> store w).
        { rewrite Hst. apply update_first_fmap. intros u. simpl.
          by rewrite Hmod. }
        split; [|done].
        rewrite <- Hpw. f_equal. rewrite Hst, <- (update_first_length (doc_id d) (apply_doc (clock w) d) (store w)).
        apply firstn_all.
Qed.

(** *** Adding a favorite: effect on the store *)

Lemma find_user_id id us u : find_user id us = Some u -> _id u = id.
Proof. intros H. apply find_some in H as [_ H]. by apply Nat.eqb_eq. Qed.

Lemma update_first_ext id f g us u :
  find_user id us = Some u -> f u = g u ->
  update_first id f us = update_first id g us.
Proof.
  unfold find_user. induction us as [|u0 us IH]; [done|].
  simpl. destruct (Nat.eqb (_id u0) id).
  - intros [= ->] ->. done.
  - intros H1 H2. by rewrite IH.
Qed.

Lemma find_user_update_first id f us u :
  find_user id us = Some u -> _id (f u) = _id u ->
  find_user id (update_first id f us) = Some (f u).
Proof.
  unfold find_user. induction us as [|u0 us IH]; [done|].
  simpl. destruct (Nat.eqb (_id u0) id) eqn:Hid.
  - intros [= ->] Hf. simpl. by rewrite Hf, Hid.
  - intros H1 H2. simpl. rewrite Hid. by apply IH.
Qed.

Lemma Forall_update_first (P : User -> Prop) id f us :
  Forall P us ->
  (forall u, find_user id us = Some u -> P (f u)) ->
  Forall P (update_first id f us).
Proof.
  unfold find_user. induction 1 as [|u0 us H0 Hus IH]; [constructor|].
  simpl. destruct (Nat.eqb (_id u0) id); intros Hf.
  - constructor; [by apply Hf|done].
  - constructor; [done|by apply IH].
Qed.

(** The handler's run on a non-zero numeric movieId. *)
Lemma add_favorite_run req_user req_body m w :
  js_get req_body "movieId" = Some (JNum m) -> m <> 0 ->
  add_favorite req_user req_body w =
    match find_user (doc_id req_user) (store w) with
    | None =>
        (inr (failure 500 "Error adding to favorites"),
         logged w [EvFindById (JOid (doc_id req_user))])
    | Some u =>
        if existsb (fun fav => Z.eqb (movieId fav) m) (favorites u)
        then (inr (failure 400 "Movie already in favorites"),
              logged w [EvFindById (JOid (doc_id req_user))])
        else (inr (mkResponse 200
                     (JObj [("success", JBool true);
                            ("message", JStr "Movie added to favorites")])),
              mkWorld (update_first (doc_id req_user)
                         (fun _ => with_favorite (clock w) m u) (store w))
                      (clock w) (next_oid w) (next_salt w)
                      (trace w ++ [EvFindById (JOid (doc_id req_user));
                                   EvUpdate (doc_id req_user)]))
    end.
Proof.
  intros Hget Hm. apply Z.eqb_neq in Hm.
  unfold add_favorite, destructure, try_catch. unfold bind at 1.
  rewrite Hget. cbn [lift_option]. unfold ret at 1. cbn [js_truthy]. rewrite Hm.
  cbn [negb]. unfold bind at 1. rewrite findById_oid.
  destruct (find_user (doc_id req_user) (store w)) as [u|] eqn:Hu; [|done].
  cbn [fmap option_fmap option_map]. unfold bind at 1. cbn [lift_option].
  unfold ret at 1. cbn [hydrate doc_favorites js_strict_eq].
  destruct (existsb _ (favorites u)); [done|].
  pose proof (find_user_id _ _ _ Hu) as Hid.
  unfold push_favorite, castNumber, save, validate, pre_save, update.
  msimpl. rewrite Hid, Hu. do 2 f_equal.
  - apply (update_first_ext _ _ _ _ u Hu). unfold apply_doc, with_favorite. done.
  - by rewrite <- app_assoc.
Qed.

(** *** Registration and login *)

Lemma find_none_existsb {A} (f : A -> bool) l :
  List.find f l = None <-> existsb f l = false.
Proof.
  induction l as [|x l IH]; [done|].
  simpl. destruct (f x); [done|]. simpl. apply IH.
Qed.

Lemma existsb_eq {A} (f g : A -> bool) l :
  (forall x, f x = g x) -> existsb f l = existsb g l.
Proof.
  intros H. induction l as [|x l IH]; [done|]. simpl. by rewrite H, IH.
Qed.

Lemma existsb_matches_iff q us :
  existsb (matches q) us = true <-> exists x, x ∈ us /\ matches q x = true.
Proof.
  rewrite existsb_exists. split; intros (x & Hx & Hm); exists x.
  - by rewrite list_elem_of_In.
  - by rewrite <- list_elem_of_In.
Qed.

(** The handler's run on three non-empty strings. *)
Lemma register_run req_body u e p w :
  js_get req_body "username" = Some (JStr u) ->
  js_get req_body "email" = Some (JStr e) ->
  js_get req_body "password" = Some (JStr p) ->
  u <> "" -> e <> "" -> p <> "" ->
  register req_body w =
    if existsb (matches (QEmailOrUsername e u)) (store w)
    then (inr (failure 400 "User already exists with this email or username"),
          logged w [EvFindOne (QEmailOrUsername e u)])
    else
      let payload := JObj [("userId", JOid (next_oid w)); ("email", JStr e)] in
      (inr (mkResponse 201
              (JObj [("success", JBool true);
                     ("message", JStr "User registered successfully");
                     ("user", JObj [("id", JOid (next_oid w));
                                    ("username", JStr u);
                                    ("email", JStr e)]);
                     ("token", JStr (jwt_sign payload JWT_SECRET "7d" (clock w)))])),
       mkWorld (store w ++ [mkUser (next_oid w) u e
                                   (bcrypt_hash p 12 (next_salt w)) [] []
                                   (clock w) (clock w)])
               (clock w) (S (next_oid w)) (S (next_salt w))
               (trace w ++ [EvFindOne (QEmailOrUsername e u);
                            EvBcryptHash p;
                            EvInsert (next_oid w);
                            EvJwtSign payload])).
Proof.
  intros Hu He Hp Hune Hene Hpne.
  destruct u as [|cu u']; [done|]. destruct e as [|ce e']; [done|].
  destruct p as [|cp p']; [done|].
  set (u := String cu u') in *. set (e := String ce e') in *.
  set (p := String cp p') in *.
  unfold register, destructure, try_catch.
  unfold bind at 1. rewrite Hu. cbn [lift_option]. unfold ret at 1.
  unfold bind at 1. rewrite He. cbn [lift_option]. unfold ret at 1.
  unfold bind at 1. rewrite Hp. cbn [lift_option]. unfold ret at 1.
  cbn [js_truthy String.eqb u e p negb orb castString].
  unfold bind at 1. unfold ret at 1. unfold bind at 1. unfold ret at 1.
  unfold bind at 1. unfold findOne. unfold bind at 1. unfold log at 1.
  cbn [store].
  destruct (existsb (matches (QEmailOrUsername e u)) (store w)) eqn:Hex.
  - destruct (List.find (matches (QEmailOrUsername e u)) (store w)) eqn:Hf.
    + done.
    + apply find_none_existsb in Hf. congruence.
  - apply find_none_existsb in Hex as Hf. rewrite Hf.
    cbn [fmap option_fmap option_map].
    unfold new_User, save, validate, pre_save, bcrypt_hash_call, insert,
      sign_token, public_user.
    msimpl.
    rewrite (existsb_eq _ (matches (QEmailOrUsername e u))), Hex.
    2:{ intros x. simpl. apply orb_comm. }
    msimpl. rewrite <- !app_assoc. done.
Qed.

(** The handler's run on two non-empty strings. *)
Lemma login_run req_body e p w :
  js_get req_body "email" = Some (JStr e) ->
  js_get req_body "password" = Some (JStr p) ->
  e <> "" -> p <> "" ->
  login req_body w =
    match List.find (matches (QEmail e)) (store w) with
    | None =>
        (inr (failure 401 "Invalid email or password"),
         logged w [EvFindOne (QEmail e)])
    | Some u =>
        if bcrypt_compare p (password u)
        then
          let payload := JObj [("userId", JOid (_id u));
                               ("email", JStr (email u))] in
          (inr (mkResponse 200
                  (JObj [("success", JBool true);
                         ("message", JStr "Login successful");
                         ("user", JObj [("id", JOid (_id u));
                                        ("username", JStr (username u));
                                        ("email", JStr (email u))]);
                         ("token",
                          JStr (jwt_sign payload JWT_SECRET "7d" (clock w)))])),
           logged w [EvFindOne (QEmail e);
                     EvBcryptCompare p (password u);
                     EvJwtSign payload])
        else
          (inr (failure 401 "Invalid email or password"),
           logged w [EvFindOne (QEmail e); EvBcryptCompare p (password u)])
    end.
Proof.
  intros He Hp Hene Hpne.
  destruct e as [|ce e']; [done|]. destruct p as [|cp p']; [done|].
  set (e := String ce e') in *. set (p := String cp p') in *.
  unfold login, destructure, try_catch.
  unfold bind at 1. rewrite He. cbn [lift_option]. unfold ret at 1.
  unfold bind at 1. rewrite Hp. cbn [lift_option]. unfold ret at 1.
  cbn [js_truthy String.eqb e p negb orb castString].
  unfold bind at 1. unfold ret at 1.
  unfold bind at 1. unfold findOne. unfold bind at 1. unfold log at 1.
  cbn [store].
  destruct (List.find (matches (QEmail e)) (store w)) as [u|]; [|done].
  cbn [fmap option_fmap option_map].
  unfold comparePassword, sign_token, public_user. msimpl.
  destruct (bcrypt_compare p (password u)); msimpl.
  - by rewrite <- !app_assoc.
  - by rewrite <- !app_assoc.
Qed.

Lemma existsb_matches_or e u us :
  existsb (matches (QEmailOrUsername e u)) us = true <->
  exists x, x ∈ us /\ (email x = e \/ username x = u).
Proof.
  rewrite existsb_matches_iff. split; intros (x & Hx & Hm); exists x.
  - split; [done|]. simpl in Hm. apply orb_true_iff in Hm.
    by rewrite !String.eqb_eq in Hm.
  - split; [done|]. simpl. apply orb_true_iff. by rewrite !String.eqb_eq.
Qed.

(** C4 (as amended): a registration whose three fields are all present
    and truthy strings is refused with 400 "User already exists with
    this email or username" whenever a stored user has the same email
    or the same username, found by a single combined lookup; otherwise
    a user with the bcrypt hash of the password and no favorites or
    watchlists is appended to the collection and the reply is 201 with
    success, a token, and a user object of id, username and email only.
    A registration with a falsy field is refused with 400 "All fields
    are required" before anything is looked up. *)
Theorem register_conflict_or_created req_body uV eV pV w :
  js_get req_body "username" = Some uV ->
  js_get req_body "email" = Some eV ->
  js_get req_body "password" = Some pV ->
  (js_truthy uV && js_truthy eV && js_truthy pV = false ->
   register req_body w = (inr (failure 400 "All fields are required"), w)) /\
  (forall u e p,
     uV = JStr u -> eV = JStr e -> pV = JStr p ->
     u <> "" -> e <> "" -> p <> "" ->
     ((exists x, x ∈ store w /\ (email x = e \/ username x = u)) ->
      register req_body w =
        (inr (failure 400 "User already exists with this email or username"),
         logged w [EvFindOne (QEmailOrUsername e u)])) /\
     (~ (exists x, x ∈ store w /\ (email x = e \/ username x = u)) ->
      exists token w',
        register req_body w =
          (inr (mkResponse 201
                  (JObj [("success", JBool true);
                         ("message", JStr "User registered successfully");
                         ("user", JObj [("id", JOid (next_oid w));
                                        ("username", JStr u);
                                        ("email", JStr e)]);
                         ("token", JStr token)])), w') /\
        store w' = store w ++ [mkUser (next_oid w) u e
                                      (bcrypt_hash p 12 (next_salt w)) [] []
                                      (clock w) (clock w)] /\
        trace w' = trace w ++
                   [EvFindOne (QEmailOrUsername e u); EvBcryptHash p;
                    EvInsert (next_oid w);
                    EvJwtSign (JObj [("userId", JOid (next_oid w));
                                     ("email", JStr e)])])).
Proof.
  intros Hu He Hp. split.
  - intros Hfalsy. unfold register, destructure. msimpl.
    rewrite Hu. msimpl. rewrite He. msimpl. rewrite Hp. msimpl.
    destruct (js_truthy uV), (js_truthy eV), (js_truthy pV); done.
  - intros u e p -> -> -> Hune Hene Hpne.
    rewrite (register_run _ _ _ _ _ Hu He Hp Hune Hene Hpne).
    split.
    + intros Htaken. apply existsb_matches_or in Htaken. by rewrite Htaken.
    + intros Hfree.
      destruct (existsb (matches (QEmailOrUsername e u)) (store w)) eqn:Hex.
      { by apply existsb_matches_or in Hex. }
      by eexists _, _.
Qed.

(** C5 (as amended): a login with an unregistered email and a login
    with a registered email and a wrong password get the same reply,
    401 with "Invalid email or password", and neither changes the
    collection; the reply does not tell the two apart.  The work does:
    the bcrypt comparison is made only for the registered email. *)
Theorem login_failures_same_reply body1 body2 e1 p1 e2 p2 u w :
  js_get body1 "email" = Some (JStr e1) ->
  js_get body1 "password" = Some (JStr p1) ->
  js_get body2 "email" = Some (JStr e2) ->
  js_get body2 "password" = Some (JStr p2) ->
  e1 <> "" -> p1 <> "" -> e2 <> "" -> p2 <> "" ->
  (forall x, x ∈ store w -> email x <> e1) ->
  List.find (matches (QEmail e2)) (store w) = Some u ->
  bcrypt_compare p2 (password u) = false ->
  fst (login body1 w) = inr (failure 401 "Invalid email or password") /\
  fst (login body2 w) = fst (login body1 w) /\
  snd (login body1 w) = logged w [EvFindOne (QEmail e1)] /\
  snd (login body2 w) =
    logged w [EvFindOne (QEmail e2); EvBcryptCompare p2 (password u)].
Proof.
  intros He1 Hp1 He2 Hp2 Hne1 Hnp1 Hne2 Hnp2 Hunreg Hreg Hwrong.
  rewrite (login_run _ _ _ _ He1 Hp1 Hne1 Hnp1).
  rewrite (login_run _ _ _ _ He2 Hp2 Hne2 Hnp2).
  rewrite Hreg, Hwrong.
  destruct (List.find (matches (QEmail e1)) (store w)) as [x|] eqn:Hf; [|done].
  apply find_some in Hf as [Hin Hm]. simpl in Hm.
  apply String.eqb_eq in Hm. apply list_elem_of_In in Hin.
  by destruct (Hunreg x Hin).
Qed.

(** *** The favorites invariant *)

Section Maintains.

Context (I : list User -> Prop).

Lemma maintains_ret {A} (a : A) (Q : A -> Prop) : Q a -> maintains I (ret a) Q.
Proof. intros HQ w HI. split; [done|]. by intros a' [= <-]. Qed.

Lemma maintains_throw {A} e (Q : A -> Prop) : maintains I (throw e) Q.
Proof. intros w HI. by split. Qed.

Lemma maintains_bind {A B} (m : M A) (k : A -> M B) Q Q' :
  maintains I m Q -> (forall a, Q a -> maintains I (k a) Q') ->
  maintains I (bind m k) Q'.
Proof.
  intros Hm Hk w HI. destruct (Hm w HI) as [HI' HQ]. unfold bind.
  destruct (m w) as [[e|a] w']; simpl in *; [done|].
  by apply Hk; [apply HQ|].
Qed.

Lemma maintains_try_catch {A} (m : M A) h Q :
  maintains I m Q -> (forall e, maintains I (h e) Q) ->
  maintains I (try_catch m h) Q.
Proof.
  intros Hm Hh w HI. destruct (Hm w HI) as [HI' HQ]. unfold try_catch.
  destruct (m w) as [[e|a] w']; simpl in *; [by apply Hh|].
  split; [done|]. intros a' [= <-]. by apply HQ.
Qed.

Lemma maintains_weaken {A} (m : M A) (Q Q' : A -> Prop) :
  maintains I m Q -> (forall a, Q a -> Q' a) -> maintains I m Q'.
Proof. intros Hm HQ w HI. destruct (Hm w HI). split; [done|]. eauto. Qed.

Lemma maintains_lift_option {A} e (o : option A) :
  maintains I (lift_option e o) (fun a => o = Some a).
Proof.
  destruct o; simpl; [by apply maintains_ret|apply maintains_throw].
Qed.

Lemma maintains_log e : maintains I (log e) (fun _ => True).
Proof. intros w HI. by split. Qed.

Lemma maintains_now : maintains I now (fun _ => True).
Proof. intros w HI. by split. Qed.

Lemma maintains_castString v : maintains I (castString v) (fun _ => True).
Proof.
  unfold castString.
  destruct v; try (eapply maintains_weaken; [apply maintains_lift_option|done]).
  by apply maintains_ret.
Qed.

Lemma maintains_findOne q : maintains I (findOne q) (fun _ => True).
Proof. intros w HI. by split. Qed.

Lemma maintains_new_User uV eV pV :
  maintains I (new_User uV eV pV)
            (fun d => doc_favorites d = [] /\ doc_isNew d = true).
Proof.
  unfold new_User.
  eapply maintains_bind; [apply maintains_castString|intros u _].
  eapply maintains_bind; [apply maintains_castString|intros e _].
  eapply maintains_bind; [apply maintains_castString|intros p _].
  intros w HI. split; [done|]. by intros d [= <-].
Qed.

Lemma maintains_comparePassword d v :
  maintains I (comparePassword d v) (fun _ => True).
Proof.
  unfold comparePassword. destruct v, (doc_password d);
    try apply maintains_throw.
  eapply maintains_bind; [apply maintains_log|intros _ _].
  by apply maintains_ret.
Qed.

Lemma maintains_sign_token d : maintains I (sign_token d) (fun _ => True).
Proof.
  unfold sign_token.
  eapply maintains_bind; [apply maintains_log|intros _ _].
  eapply maintains_bind; [apply maintains_now|intros t _].
  by apply maintains_ret.
Qed.

Lemma maintains_login req_body : maintains I (login req_body) (fun _ => True).
Proof.
  unfold login, destructure.
  apply maintains_try_catch; [|intros; by apply maintains_ret].
  eapply maintains_bind; [apply maintains_lift_option|intros eV _].
  eapply maintains_bind; [apply maintains_lift_option|intros pV _].
  destruct (_ || _); [by apply maintains_ret|].
  eapply maintains_bind; [apply maintains_castString|intros e _].
  eapply maintains_bind; [apply maintains_findOne|intros [user|] _];
    [|by apply maintains_ret].
  eapply maintains_bind; [apply maintains_comparePassword|intros ok _].
  destruct (negb ok); [by apply maintains_ret|].
  eapply maintains_bind; [apply maintains_sign_token|intros tok _].
  by apply maintains_ret.
Qed.

End Maintains.

Lemma favorites_unique_snoc us u :
  favorites_unique us -> NoDup (movieId <$> favorites u) ->
  favorites_unique (us ++ [u]).
Proof. intros Hus Hu. apply Forall_app. split; [done|]. by constructor. Qed.

Lemma insert_throws d w e w' :
  insert d w = (inl e, w') -> store w' = store w.
Proof.
  unfold insert, bind, log. cbn [store].
  destruct (existsb _ _); [by intros [= _ <-]|].
  destruct (doc_password _); [done|]. by intros [= _ <-].
Qed.

Lemma update_throws d w e w' :
  update d w = (inl e, w') -> store w' = store w.
Proof.
  unfold update. destruct (doc_modified _); [done|].
  unfold bind, log. cbn [store].
  destruct (find_user _ _); [done|]. by intros [= _ <-].
Qed.

Lemma save_throws d w e w' :
  save d w = (inl e, w') -> store w' = store w.
Proof.
  unfold save, validate. unfold bind at 1.
  destruct (_ && _); [|by intros [= _ <-]]. unfold ret at 1.
  unfold bind. rewrite pre_save_run.
  assert (Hwrite : forall d1 w1,
            (if doc_isNew d1 then insert d1 else update d1) w1 = (inl e, w') ->
            store w' = store w1).
  { intros d1 w1. destruct (doc_isNew d1);
      [apply insert_throws|apply update_throws]. }
  destruct (isModified d "password").
  - destruct (doc_password d) as [p|]; [|by intros [= _ <-]].
    intros H. by apply Hwrite in H.
  - apply Hwrite.
Qed.

Lemma maintains_save d :
  NoDup (movieId <$> doc_favorites d) ->
  maintains favorites_unique (save d) (fun _ => True).
Proof.
  intros Hd w HI. split; [|done].
  destruct (save d w) as [[e|d'] w'] eqn:Hs.
  - apply save_throws in Hs. simpl. by rewrite Hs.
  - revert Hs. unfold save, validate. unfold bind at 1.
    destruct (_ && _); [|done]. unfold ret at 1.
    unfold bind. rewrite pre_save_run.
    assert (Hsaved : forall d1 w1,
              doc_favorites d1 = doc_favorites d -> store w1 = store w ->
              (if doc_isNew d1 then insert d1 else update d1) w1 = (inr d', w') ->
              favorites_unique (store w')).
    { intros d1 w1 Hf Hw1. destruct (doc_isNew d1).
      - intros Hins. apply insert_run in Hins as (p & _ & _ & _ & -> & _).
        rewrite Hw1. apply favorites_unique_snoc; [done|]. simpl. by rewrite Hf.
      - intros Hupd. apply update_run in Hupd
          as [(_ & _ & ->)|(_ & _ & _ & _ & ->)]; [by rewrite Hw1|].
        rewrite Hw1. apply Forall_update_first; [done|].
        intros u Hu. unfold apply_doc. simpl.
        destruct (isModified d1 "favorites"); [by rewrite Hf|].
        unfold favorites_unique in HI. rewrite Forall_forall in HI.
        apply HI. apply list_elem_of_In, (find_some _ _ Hu). }
    destruct (isModified d "password").
    + destruct (doc_password d) as [p|]; [|done].
      by apply Hsaved.
    + by apply Hsaved.
Qed.

Lemma maintains_register req_body :
  maintains favorites_unique (register req_body) (fun _ => True).
Proof.
  unfold register, destructure.
  apply maintains_try_catch; [|intros; by apply maintains_ret].
  eapply maintains_bind; [apply maintains_lift_option|intros uV _].
  eapply maintains_bind; [apply maintains_lift_option|intros eV _].
  eapply maintains_bind; [apply maintains_lift_option|intros pV _].
  destruct (_ || _); [by apply maintains_ret|].
  eapply maintains_bind; [apply maintains_castString|intros e _].
  eapply maintains_bind; [apply maintains_castString|intros u _].
  eapply maintains_bind; [apply maintains_findOne|intros [existing|] _];
    [by apply maintains_ret|].
  eapply maintains_bind; [apply maintains_new_User|intros d [Hfav _]].
  eapply maintains_bind.
  { apply maintains_save. rewrite Hfav. constructor. }
  intros d' _.
  eapply maintains_bind; [apply maintains_sign_token|intros tok _].
  by apply maintains_ret.
Qed.

Lemma maintains_findById id :
  maintains favorites_unique (findById id)
            (fun found => forall d, found = Some d ->
                                    NoDup (movieId <$> doc_favorites d)).
Proof.
  intros w HI. rewrite findById_run. split; [done|]. simpl.
  intros found Hfound d ->.
  destruct (castObjectId id) as [o|];
    [|destruct (nullish id); discriminate].
  destruct (find_user o (store w)) as [u|] eqn:Hu; [|discriminate].
  injection Hfound as <-. simpl.
  unfold favorites_unique in HI. rewrite Forall_forall in HI.
  apply HI, list_elem_of_In, (find_some _ _ Hu).
Qed.

Lemma maintains_fetch_favorite I fav :
  maintains I (fetch_favorite fav) (fun _ => True).
Proof. intros w HI. by rewrite fetch_favorite_run. Qed.

Lemma maintains_get_favorites req_user :
  maintains favorites_unique (get_favorites req_user) (fun _ => True).
Proof.
  unfold get_favorites.
  apply maintains_try_catch; [|intros; by apply maintains_ret].
  eapply maintains_bind; [apply maintains_findById|intros found _].
  eapply maintains_bind; [apply maintains_lift_option|intros user _].
  eapply maintains_bind with (Q := fun _ => True);
    [|intros; by apply maintains_ret].
  intros w HI. by rewrite mapM_fetch_favorite.
Qed.

Lemma not_favorite_yet m favs :
  existsb (fun fav => js_strict_eq (JNum (movieId fav)) (JNum m)) favs = false ->
  m ∉ movieId <$> favs.
Proof.
  intros Hex Hin. apply list_elem_of_fmap in Hin as (fav & -> & Hin).
  apply not_true_iff_false in Hex. apply Hex, existsb_exists.
  exists fav. split; [by apply list_elem_of_In|]. simpl. apply Z.eqb_refl.
Qed.

Lemma NoDup_snoc_movie m t favs :
  NoDup (movieId <$> favs) -> m ∉ movieId <$> favs ->
  NoDup (movieId <$> (favs ++ [mkFavorite m t])).
Proof.
  intros Hnd Hm. rewrite fmap_app. apply NoDup_app. split; [done|]. split.
  - intros x Hx Hx'. apply list_elem_of_singleton in Hx'. simpl in Hx'.
    by subst.
  - apply NoDup_singleton.
Qed.

Lemma maintains_add_favorite req_user req_body :
  (forall v, js_get req_body "movieId" = Some v -> js_truthy v = true ->
             exists n, v = JNum n) ->
  maintains favorites_unique (add_favorite req_user req_body) (fun _ => True).
Proof.
  intros Hint. unfold add_favorite, destructure.
  apply maintains_try_catch; [|intros; by apply maintains_ret].
  eapply maintains_bind; [apply maintains_lift_option|intros v Hv].
  destruct (js_truthy v) eqn:Htruthy; [|by apply maintains_ret].
  destruct (Hint v Hv Htruthy) as [m ->]. cbn [negb].
  eapply maintains_bind; [apply maintains_findById|intros found Hfound].
  eapply maintains_bind; [apply maintains_lift_option|intros user ->].
  destruct (existsb _ (doc_favorites user)) eqn:Hex; [by apply maintains_ret|].
  eapply maintains_bind with
    (Q := fun d => NoDup (movieId <$> doc_favorites d)).
  - unfold push_favorite, castNumber.
    eapply maintains_bind;
      [by apply (maintains_ret _ m (fun n => n = m))|intros ? ->].
    eapply maintains_bind; [apply maintains_now|intros t _].
    apply maintains_ret. simpl.
    apply NoDup_snoc_movie; [by apply Hfound|by apply not_favorite_yet].
  - intros d Hd.
    eapply maintains_bind; [by apply maintains_save|intros _ _].
    by apply maintains_ret.
Qed.

Lemma maintains_authenticateToken I authorization :
  maintains I (authenticateToken authorization) (fun _ => True).
Proof.
  intros w HI. destruct (authenticateToken_world authorization w)
    as (_ & _ & _ & ->). by split.
Qed.

Lemma maintains_serve r :
  integer_movieId r -> maintains favorites_unique (serve r) (fun _ => True).
Proof.
  destruct r as [b|b|a|a b]; simpl; intros Hint.
  - apply maintains_register.
  - apply maintains_login.
  - unfold authenticated.
    eapply maintains_bind; [apply maintains_authenticateToken|].
    intros [reply|req_user] _; [by apply maintains_ret|].
    apply maintains_get_favorites.
  - unfold authenticated.
    eapply maintains_bind; [apply maintains_authenticateToken|].
    intros [reply|req_user] _; [by apply maintains_ret|].
    by apply maintains_add_favorite.
Qed.

Lemma entries_for_none m favs :
  m ∉ movieId <$> favs ->
  List.filter (fun fav => Z.eqb (movieId fav) m) favs = [].
Proof.
  induction favs as [|fav favs IH]; [done|].
  csimpl. intros Hm. apply not_elem_of_cons in Hm as [Hne Hm].
  apply not_eq_sym, Z.eqb_neq in Hne. rewrite Hne. by apply IH.
Qed.

Lemma entries_for_NoDup m favs :
  NoDup (movieId <$> favs) -> m ∈ movieId <$> favs ->
  length (List.filter (fun fav => Z.eqb (movieId fav) m) favs) = 1%nat.
Proof.
  induction favs as [|fav favs IH]; csimpl.
  - intros _ Hin. by apply elem_of_nil in Hin.
  - intros Hnd Hin. apply NoDup_cons in Hnd as [Hfresh Hnd].
    destruct (Z.eqb (movieId fav) m) eqn:Heq.
    + apply Z.eqb_eq in Heq. subst m. by rewrite entries_for_none.
    + apply Z.eqb_neq in Heq. apply elem_of_cons in Hin as [?|Hin]; [done|].
      by apply IH.
Qed.

(** C6 (as amended): for a user [u] whose favorites hold no duplicate
    and a movie identifier [m] other than 0, adding [m] and then adding
    it again is refused the second time with 400 "Movie already in
    favorites", and afterwards [u] has exactly one favorite for [m] and
    still no duplicate.  Moreover every request whose movieId, when
    truthy, is a number keeps every user's favorites free of
    duplicates. *)
Theorem add_favorite_twice_conflict :
  (forall req_user req_body m u w,
     js_get req_body "movieId" = Some (JNum m) -> m <> 0 ->
     find_user (doc_id req_user) (store w) = Some u ->
     NoDup (movieId <$> favorites u) ->
     let w1 := snd (add_favorite req_user req_body w) in
     let second := add_favorite req_user req_body w1 in
     fst second = inr (failure 400 "Movie already in favorites") /\
     exists u2, find_user (doc_id req_user) (store (snd second)) = Some u2 /\
                entries_for m u2 = 1%nat /\
                NoDup (movieId <$> favorites u2)) /\
  (forall r w,
     integer_movieId r -> favorites_unique (store w) ->
     favorites_unique (store (snd (serve r w)))).
Proof.
  split.
  - intros req_user req_body m u w Hget Hm Hu Hnd w1 second.
    subst second w1.
    rewrite (add_favorite_run _ _ _ w Hget Hm), Hu.
    destruct (existsb _ (favorites u)) eqn:Hex.
    + cbn [snd]. rewrite (add_favorite_run _ _ _ _ Hget Hm).
      cbn [logged store]. rewrite Hu, Hex. split; [done|].
      exists u. split; [done|]. split; [|done].
      apply entries_for_NoDup; [done|].
      apply existsb_exists in Hex as (fav & Hin & Heq).
      apply Z.eqb_eq in Heq. subst m.
      apply list_elem_of_fmap. exists fav. split; [done|].
      by apply list_elem_of_In.
    + cbn [snd]. rewrite (add_favorite_run _ _ _ _ Hget Hm). cbn [store].
      rewrite (find_user_update_first _ _ _ u Hu) by done.
      assert (Hm' : m ∉ movieId <$> favorites u) by by apply not_favorite_yet.
      assert (Hnow : existsb (fun fav => Z.eqb (movieId fav) m)
                       (favorites (with_favorite (clock w) m u)) = true).
      { simpl. rewrite existsb_app. simpl. rewrite Z.eqb_refl.
        by rewrite orb_true_r. }
      rewrite Hnow. split; [done|].
      exists (with_favorite (clock w) m u). cbn [logged store].
      split;
        [by apply (find_user_update_first _
                     (fun _ => with_favorite (clock w) m u) _ u Hu)|].
      split.
      * unfold entries_for. simpl. rewrite List.filter_app, entries_for_none by done.
        simpl. by rewrite Z.eqb_refl.
      * simpl. by apply NoDup_snoc_movie.
  - intros r w Hint HI. by apply (maintains_serve r Hint w).
Qed.

(** *** Outcomes of the handlers *)

Ltac envelope_ok := split; [simpl; auto 10|reflexivity].

Section Triples.

Context (us0 : list User).

Lemma triple_ret {A} (P : World -> Prop) (a : A) (Q : A -> World -> Prop) E :
  (forall w, P w -> Q a w) -> triple P (ret a) Q E.
Proof. intros H w HP. by apply H. Qed.

Lemma triple_throw {A} (P : World -> Prop) e (Q : A -> World -> Prop)
  (E : World -> Prop) :
  (forall w, P w -> E w) -> triple P (throw e) Q E.
Proof. intros H w HP. by apply H. Qed.

Lemma triple_bind {A B} P (m : M A) (k : A -> M B) R Q E :
  triple P m R E -> (forall a, triple (R a) (k a) Q E) ->
  triple P (bind m k) Q E.
Proof.
  intros Hm Hk w HP. specialize (Hm w HP). unfold bind.
  destruct (m w) as [[e|a] w']; [done|]. by apply Hk.
Qed.

Lemma triple_try_catch {A} P (m : M A) h Q E' E :
  triple P m Q E' -> (forall e, triple E' (h e) Q E) ->
  triple P (try_catch m h) Q E.
Proof.
  intros Hm Hh w HP. specialize (Hm w HP). unfold try_catch.
  destruct (m w) as [[e|a] w']; [by apply Hh|done].
Qed.

Lemma triple_conseq {A} (P : World -> Prop) (m : M A)
  (Q Q' : A -> World -> Prop) (E E' : World -> Prop) :
  triple P m Q E -> (forall a w, Q a w -> Q' a w) -> (forall w, E w -> E' w) ->
  triple P m Q' E'.
Proof.
  intros Hm HQ HE w HP. specialize (Hm w HP).
  destruct (m w) as [[e|a] w']; eauto.
Qed.

Lemma triple_pure_pre {A} (P : World -> Prop) (phi : Prop) (m : M A) Q E :
  (phi -> triple P m Q E) -> triple (fun w => P w /\ phi) m Q E.
Proof. intros H w [HP Hphi]. by apply H. Qed.

(** Sequencing a step that leaves the collection alone. *)
Lemma triple_bind_keeps {A B} (m : M A) (k : A -> M B) (phi : A -> Prop) Q
  (E : World -> Prop) :
  (forall w, keeps us0 w -> E w) ->
  triple (keeps us0) m (fun a w => keeps us0 w /\ phi a) (keeps us0) ->
  (forall a, phi a -> triple (keeps us0) (k a) Q E) ->
  triple (keeps us0) (bind m k) Q E.
Proof.
  intros HE Hm Hk. eapply triple_bind.
  - eapply triple_conseq; [exact Hm|done|exact HE].
  - intros a w [Hw Hphi]. by apply Hk.
Qed.

Lemma keeps_lift_option {A} e (o : option A) :
  triple (keeps us0) (lift_option e o)
         (fun a w => keeps us0 w /\ o = Some a) (keeps us0).
Proof. intros w Hw. by destruct o. Qed.

Lemma keeps_log e :
  triple (keeps us0) (log e) (fun _ w => keeps us0 w /\ True) (keeps us0).
Proof. intros w Hw. by split. Qed.

Lemma keeps_now :
  triple (keeps us0) now (fun _ w => keeps us0 w /\ True) (keeps us0).
Proof. intros w Hw. by split. Qed.

Lemma keeps_castString v :
  triple (keeps us0) (castString v) (fun _ w => keeps us0 w /\ True) (keeps us0).
Proof.
  intros w Hw. unfold castString.
  destruct v; try (by destruct (castStringOther _)). by split.
Qed.

Lemma keeps_castNumber v :
  triple (keeps us0) (castNumber v) (fun _ w => keeps us0 w /\ True) (keeps us0).
Proof.
  intros w Hw. unfold castNumber.
  destruct v; try (by destruct (castNumberOther _)). by split.
Qed.

Lemma keeps_findOne q :
  triple (keeps us0) (findOne q) (fun _ w => keeps us0 w /\ True) (keeps us0).
Proof. intros w Hw. by split. Qed.

Lemma keeps_findById id :
  triple (keeps us0) (findById id)
         (fun found w => keeps us0 w /\
                         forall d, found = Some d ->
                                   doc_isNew d = false /\ doc_modified d = [])
         (keeps us0).
Proof.
  intros w Hw. rewrite findById_run.
  destruct (castObjectId id) as [o|]; [|by destruct (nullish id)].
  split; [done|]. intros d Hd.
  destruct (find_user o (store w)); [|discriminate].
  by injection Hd as <-.
Qed.

Lemma keeps_new_User uV eV pV :
  triple (keeps us0) (new_User uV eV pV)
         (fun d w => keeps us0 w /\
                     (doc_isNew d = true /\ doc_favorites d = [] /\
                      doc_watchlists d = []))
         (keeps us0).
Proof.
  unfold new_User.
  eapply triple_bind_keeps; [done|apply keeps_castString|intros u _].
  eapply triple_bind_keeps; [done|apply keeps_castString|intros e _].
  eapply triple_bind_keeps; [done|apply keeps_castString|intros p _].
  intros w Hw. by split.
Qed.

Lemma keeps_comparePassword d v :
  triple (keeps us0) (comparePassword d v)
         (fun _ w => keeps us0 w /\ True) (keeps us0).
Proof.
  intros w Hw. unfold comparePassword.
  destruct v, (doc_password d); done.
Qed.

Lemma keeps_sign_token d :
  triple (keeps us0) (sign_token d) (fun _ w => keeps us0 w /\ True) (keeps us0).
Proof. intros w Hw. by split. Qed.

Lemma keeps_fetch_favorites favs :
  triple (keeps us0) (mapM_M fetch_favorite favs)
         (fun _ w => keeps us0 w /\ True) (keeps us0).
Proof. intros w Hw. rewrite mapM_fetch_favorite. by split. Qed.

(** Saving a new document appends it or throws and changes nothing. *)
Lemma save_new_outcome d :
  doc_isNew d = true -> doc_favorites d = [] -> doc_watchlists d = [] ->
  triple (keeps us0) (save d)
         (fun _ w => at_most_appended us0 (store w) /\ store w <> us0)
         (keeps us0).
Proof.
  intros Hnew Hfav Hwl w Hw.
  destruct (save d w) as [[e|d'] w'] eqn:Hs.
  - apply save_throws in Hs. unfold keeps in *. congruence.
  - revert Hs. unfold save, validate. unfold bind at 1.
    destruct (_ && _); [|done]. unfold ret at 1.
    unfold bind. rewrite pre_save_run.
    assert (Hins : forall d1 w1,
              doc_favorites d1 = [] -> doc_watchlists d1 = [] ->
              store w1 = us0 -> insert d1 w1 = (inr d', w') ->
              at_most_appended us0 (store w') /\ store w' <> us0).
    { intros d1 w1 Hf1 Hw1 Hst Hins.
      apply insert_run in Hins as (p & _ & _ & _ & Hst' & Hfresh).
      rewrite Hst in Hst', Hfresh. split.
      - right. eexists. split; [exact Hst'|]. simpl.
        split; [done|]. split; [done|].
        apply Forall_forall. intros x Hx.
        apply not_true_iff_false in Hfresh.
        split; intros Heq; apply Hfresh, existsb_exists; exists x;
          (split; [by apply list_elem_of_In|]); apply orb_true_iff;
          [left|right]; by apply String.eqb_eq.
      - rewrite Hst'. intros Heq.
        apply (f_equal length) in Heq. rewrite length_app in Heq.
        simpl in Heq. lia. }
    destruct (isModified d "password").
    + destruct (doc_password d) as [p|]; [|done].
      cbn [set_password markModified doc_isNew]. rewrite Hnew.
      by apply Hins.
    + rewrite Hnew. by apply Hins.
Qed.

(** Saving a loaded document whose only modified path is the
    favorites touches at most that user's favorites. *)
Lemma save_favorites_outcome d :
  doc_isNew d = false -> doc_modified d = ["favorites"] ->
  triple (keeps us0) (save d)
         (fun _ w => at_most_touched (doc_id d) us0 (store w))
         (keeps us0).
Proof.
  intros Hnew Hmod w Hw.
  destruct (save d w) as [[e|d'] w'] eqn:Hs.
  - apply save_throws in Hs. unfold keeps in *. congruence.
  - revert Hs. unfold save, validate. unfold bind at 1.
    destruct (_ && _); [|done]. unfold ret at 1.
    unfold bind. rewrite pre_save_run.
    assert (Hpaths : forall path, path <> "favorites" ->
                                  isModified d path = false).
    { intros path Hne. unfold isModified. rewrite Hmod. simpl.
      apply String.eqb_neq in Hne. by rewrite Hne. }
    rewrite (Hpaths "password") by done. rewrite Hnew.
    intros Hupd. apply update_run in Hupd
      as [(_ & _ & ->)|(_ & _ & _ & _ & ->)]; [by left|].
    right. rewrite Hw. eexists. split; [|done].
    intros u. unfold credentials, apply_doc. simpl.
    by rewrite !Hpaths.
Qed.

Lemma login_outcome req_body :
  triple (keeps us0) (login req_body)
         (fun r w => envelope r /\ keeps us0 w) (fun _ => False).
Proof.
  unfold login, destructure.
  apply triple_try_catch with (E' := keeps us0);
    [|intros e; apply triple_ret; intros w Hw; split; [envelope_ok|done]].
  eapply triple_bind_keeps; [done|apply keeps_lift_option|intros eV _].
  eapply triple_bind_keeps; [done|apply keeps_lift_option|intros pV _].
  destruct (_ || _);
    [apply triple_ret; intros w Hw; split; [envelope_ok|done]|].
  eapply triple_bind_keeps; [done|apply keeps_castString|intros e _].
  eapply triple_bind_keeps; [done|apply keeps_findOne|intros [user|] _];
    [|apply triple_ret; intros w Hw; split; [envelope_ok|done]].
  eapply triple_bind_keeps; [done|apply keeps_comparePassword|intros ok _].
  destruct (negb ok);
    [apply triple_ret; intros w Hw; split; [envelope_ok|done]|].
  eapply triple_bind_keeps; [done|apply keeps_sign_token|intros tok _].
  apply triple_ret; intros w Hw; split; [envelope_ok|done].
Qed.

Lemma get_favorites_outcome req_user :
  triple (keeps us0) (get_favorites req_user)
         (fun r w => envelope r /\ keeps us0 w) (fun _ => False).
Proof.
  unfold get_favorites.
  apply triple_try_catch with (E' := keeps us0);
    [|intros e; apply triple_ret; intros w Hw; split; [envelope_ok|done]].
  eapply triple_bind_keeps; [done|apply keeps_findById|intros found _].
  eapply triple_bind_keeps; [done|apply keeps_lift_option|intros user _].
  eapply triple_bind_keeps; [done|apply keeps_fetch_favorites|intros favs _].
  apply triple_ret; intros w Hw; split; [envelope_ok|done].
Qed.

Lemma register_outcome req_body :
  triple (keeps us0) (register req_body)
         (fun r w => envelope r /\ at_most_appended us0 (store w) /\
                     (status r <> 201 \/ store w <> us0))
         (fun _ => False).
Proof.
  unfold register, destructure.
  apply triple_try_catch with (E' := fun w => at_most_appended us0 (store w)).
  2:{ intros e. apply triple_ret. intros w Hw.
      split; [envelope_ok|]. split; [done|]. by left. }
  assert (Hkeep : forall w, keeps us0 w -> at_most_appended us0 (store w))
    by (intros w Hw; by left).
  assert (Hreply : forall code msg,
            code = 400 ->
            triple (keeps us0) (ret (failure code msg))
                   (fun r w => envelope r /\ at_most_appended us0 (store w) /\
                               (status r <> 201 \/ store w <> us0))
                   (fun w => at_most_appended us0 (store w))).
  { intros code msg ->. apply triple_ret. intros w Hw.
    split; [envelope_ok|]. split; [by left|]. by left. }
  eapply triple_bind_keeps; [done|apply keeps_lift_option|intros uV _].
  eapply triple_bind_keeps; [done|apply keeps_lift_option|intros eV _].
  eapply triple_bind_keeps; [done|apply keeps_lift_option|intros pV _].
  destruct (_ || _); [by apply Hreply|].
  eapply triple_bind_keeps; [done|apply keeps_castString|intros e _].
  eapply triple_bind_keeps; [done|apply keeps_castString|intros u _].
  eapply triple_bind_keeps; [done|apply keeps_findOne|intros [existing|] _];
    [by apply Hreply|].
  eapply triple_bind_keeps;
    [done|apply keeps_new_User|intros d (Hnew & Hfav & Hwl)].
  eapply triple_bind.
  { eapply triple_conseq; [by apply save_new_outcome|done|done]. }
  intros d' w [Happ Hne].
  pose proof (keeps_sign_token d' w) as Hsign. unfold bind.
  destruct (sign_token d' w) as [[e'|tok] w'] eqn:Hs.
  - revert Hs. unfold sign_token. by msimpl.
  - assert (Hst : store w' = store w).
    { revert Hs. unfold sign_token. msimpl. by intros [= _ <-]. }
    unfold ret. rewrite Hst. split; [envelope_ok|]. split; [done|]. by right.
Qed.

Lemma add_favorite_outcome req_user req_body :
  triple (keeps us0) (add_favorite req_user req_body)
         (fun r w => envelope r /\
                     at_most_touched (doc_id req_user) us0 (store w))
         (fun _ => False).
Proof.
  unfold add_favorite, destructure.
  apply triple_try_catch
    with (E' := fun w => at_most_touched (doc_id req_user) us0 (store w)).
  2:{ intros e. apply triple_ret. intros w Hw. split; [envelope_ok|done]. }
  assert (Hkeep : forall w, keeps us0 w ->
                            at_most_touched (doc_id req_user) us0 (store w))
    by (intros w Hw; by left).
  eapply triple_bind_keeps; [done|apply keeps_lift_option|intros v _].
  destruct (negb (js_truthy v));
    [apply triple_ret; intros w Hw; split; [envelope_ok|by left]|].
  eapply triple_bind with
    (R := fun found w => keeps us0 w /\
            forall d, found = Some d ->
                      doc_id d = doc_id req_user /\
                      doc_isNew d = false /\ doc_modified d = []).
  { intros w Hw. rewrite findById_oid. split; [done|]. intros d Hd.
    destruct (find_user (doc_id req_user) (store w)) as [u|] eqn:Hu;
      [|discriminate].
    injection Hd as <-. split; [|done]. by apply find_user_id in Hu. }
  intros found. apply triple_pure_pre. intros Hfound.
  eapply triple_bind_keeps; [done|apply keeps_lift_option|intros user ->].
  destruct (Hfound user eq_refl) as (Hid & Hnew & Hmod).
  destruct (existsb _ (doc_favorites user));
    [apply triple_ret; intros w Hw; split; [envelope_ok|by left]|].
  eapply triple_bind_keeps with
    (phi := fun d => doc_id d = doc_id req_user /\ doc_isNew d = false /\
                     doc_modified d = ["favorites"]); [done| |].
  { unfold push_favorite.
    eapply triple_bind_keeps; [done|apply keeps_castNumber|intros n _].
    eapply triple_bind_keeps; [done|apply keeps_now|intros t _].
    apply triple_ret. intros w Hw. split; [done|].
    unfold markModified, isModified. simpl. by rewrite Hmod. }
  intros d (Hid' & Hnew' & Hmod').
  eapply triple_bind.
  { eapply triple_conseq; [by apply save_favorites_outcome|done|done]. }
  intros saved. apply triple_ret. intros w Hw. rewrite Hid' in Hw.
  split; [envelope_ok|done].
Qed.

Lemma authenticateToken_outcome authorization :
  triple (keeps us0) (authenticateToken authorization)
         (fun gate w => keeps us0 w /\
                        forall reply, gate = inl reply ->
                                      envelope reply /\ status reply = 401)
         (fun _ => False).
Proof.
  intros w Hw.
  destruct (token_missing (bearer_token authorization)) eqn:Hm.
  - rewrite (authenticateToken_no_token _ _ Hm). split; [done|].
    intros reply [= <-]. split; [envelope_ok|done].
  - unfold token_missing in Hm.
    destruct (bearer_token authorization) as [tok|] eqn:Htok; [|done].
    apply String.eqb_neq in Hm.
    rewrite (authenticateToken_run _ _ _ Htok Hm).
    destruct (jwt_verify tok JWT_SECRET (clock w)) as [decoded|].
    + destruct (js_get decoded "userId") as [userId|].
      * split; [done|]. intros reply.
        destruct (claimed_user decoded (store w)); [done|].
        intros [= <-]. split; [envelope_ok|done].
      * split; [done|]. intros reply [= <-]. split; [envelope_ok|done].
    + split; [done|]. intros reply [= <-]. split; [envelope_ok|done].
Qed.

Lemma authenticated_outcome authorization handler
  (S : list User -> Prop) :
  S us0 ->
  (forall req_user,
     triple (keeps us0) (handler req_user)
            (fun r w => envelope r /\ S (store w)) (fun _ => False)) ->
  triple (keeps us0) (authenticated authorization handler)
         (fun r w => envelope r /\ S (store w)) (fun _ => False).
Proof.
  intros HS Hh. unfold authenticated.
  eapply triple_bind; [apply authenticateToken_outcome|].
  intros [reply|req_user]; apply triple_pure_pre; intros Hgate.
  - apply triple_ret. intros w Hw. split; [by apply Hgate|].
    unfold keeps in Hw. by rewrite Hw.
  - apply Hh.
Qed.

Lemma serve_outcome r :
  triple (keeps us0) (serve r)
         (fun reply w =>
            envelope reply /\
            (at_most_appended us0 (store w) \/
             exists id, at_most_touched id us0 (store w)))
         (fun _ => False).
Proof.
  destruct r as [b|b|a|a b]; simpl.
  - eapply triple_conseq; [apply register_outcome| |done].
    intros reply w (Henv & Happ & _). split; [done|]. by left.
  - eapply triple_conseq; [apply login_outcome| |done].
    intros reply w (Henv & Hw). split; [done|]. left. by left.
  - apply (authenticated_outcome a get_favorites
             (fun us => at_most_appended us0 us \/
                        exists id, at_most_touched id us0 us)).
    + left. by left.
    + intros req_user. eapply triple_conseq; [apply get_favorites_outcome| |done].
      intros reply w (Henv & Hw). split; [done|]. left. by left.
  - apply (authenticated_outcome a (fun u => add_favorite u b)
             (fun us => at_most_appended us0 us \/
                        exists id, at_most_touched id us0 us)).
    + left. by left.
    + intros req_user. eapply triple_conseq; [apply add_favorite_outcome| |done].
      intros reply w (Henv & Hw). split; [done|]. right. by eexists.
Qed.

End Triples.

(** *** What every request does and does not do *)

(** X2: Every request is answered: no handler lets an exception escape,
    and the reply is one of 200, 201, 400, 401 and 500 with a boolean
    [success] that is true exactly for 200 and 201. *)
Theorem serve_always_replies r w :
  exists reply w',
    serve r w = (inr reply, w') /\ envelope reply /\
    (js_get (body reply) "success" = Some (JBool true) <->
     status reply = 200 \/ status reply = 201).
Proof.
  pose proof (serve_outcome (store w) r w eq_refl) as H.
  destruct (serve r w) as [[e|reply] w']; [done|].
  destruct H as [Henv _]. exists reply, w'. split; [done|]. split; [done|].
  destruct Henv as [Hst Hs]. rewrite Hs.
  destruct Hst as [Hst|[Hst|[Hst|[Hst|Hst]]]]; rewrite Hst; simpl;
    (split; [intros Heq|intros Hor]);
    try discriminate; auto; destruct Hor; discriminate.
Qed.

(** X7: Logging in and listing favorites never change the collection,
    whatever the body, the header and the outcome. *)
Theorem login_and_listing_read_only req_body authorization w :
  store (snd (serve (PostLogin req_body) w)) = store w /\
  store (snd (serve (GetFavorites authorization) w)) = store w.
Proof.
  split.
  - pose proof (login_outcome (store w) req_body w eq_refl) as H. simpl.
    destruct (login req_body w) as [[e|reply] w']; [done|]. by destruct H.
  - pose proof (authenticated_outcome (store w) authorization get_favorites
                  (fun us => us = store w) eq_refl) as H.
    simpl. specialize (H (get_favorites_outcome (store w)) w eq_refl).
    destruct (authenticated authorization get_favorites w) as [[e|reply] w'];
      [done|]. by destruct H.
Qed.

(** X10: Registration never modifies or removes a stored user: whatever the
    body, the collection afterwards is the one before, or the one before
    followed by a single new user without favorites or watchlists whose
    username and email were both free; and a 201 reply means that user
    was stored. *)
Theorem register_only_appends req_body w :
  at_most_appended (store w) (store (snd (register req_body w))) /\
  (forall reply, fst (register req_body w) = inr reply -> status reply = 201 ->
                 length (store (snd (register req_body w)))
                 = S (length (store w))).
Proof.
  pose proof (register_outcome (store w) req_body w eq_refl) as H.
  destruct (register req_body w) as [[e|reply] w']; [done|].
  destruct H as (_ & Happ & Hcreated). split; [done|].
  intros reply' [= <-] H201. simpl.
  destruct Hcreated as [?|Hne]; [done|].
  destruct Happ as [?|(u & Heq & _)]; [done|].
  rewrite Heq, length_app. simpl. lia.
Qed.

Lemma at_most_touched_credentials id us us' :
  at_most_touched id us us' -> credentials <$> us' = credentials <$> us.
Proof.
  intros [Heq|(f & Hf & Heq)]; rewrite Heq; [done|]. by apply update_first_fmap.
Qed.

(** X9: Adding a favorite never touches anyone's credentials: whatever the
    header and the body, every stored user keeps identifier, username,
    email, password hash, watchlists and creation date, and no user is
    added or removed. *)
Theorem add_favorite_keeps_credentials authorization req_body w :
  credentials <$> store (snd (serve (PostFavorites authorization req_body) w))
  = credentials <$> store w.
Proof.
  pose proof (authenticated_outcome (store w) authorization
                (fun u => add_favorite u req_body)
                (fun us : list User =>
                   fmap (M:=list) credentials us
                   = fmap (M:=list) credentials (store w))
                eq_refl) as H.
  simpl. unshelve epose proof (H _ w eq_refl) as H'.
  { intros req_user.
    eapply triple_conseq; [apply add_favorite_outcome| |done].
    intros reply w' (Henv & Ht). split; [done|].
    by apply at_most_touched_credentials in Ht. }
  destruct (authenticated authorization _ w) as [[e|reply] w']; [done|].
  by destruct H'.
Qed.

Lemma unique_accounts_snoc us u :
  unique_accounts us ->
  Forall (fun x => username x <> username u /\ email x <> email u) us ->
  unique_accounts (us ++ [u]).
Proof.
  intros [Hun Hem] Hfresh. rewrite Forall_forall in Hfresh.
  split; rewrite fmap_app; apply NoDup_app; (split; [done|]);
    (split; [|apply NoDup_singleton]);
    intros n Hn Hn'; apply list_elem_of_singleton in Hn'; simpl in Hn';
    apply list_elem_of_fmap in Hn as (x & -> & Hx);
    by destruct (Hfresh x Hx).
Qed.

(** X6: Usernames and emails stay unique: if no two stored users share a
    username or an email before a request, none do after it, whatever
    the request. *)
Theorem serve_keeps_accounts_unique r w :
  unique_accounts (store w) -> unique_accounts (store (snd (serve r w))).
Proof.
  intros Hu.
  pose proof (serve_outcome (store w) r w eq_refl) as H.
  destruct (serve r w) as [[e|reply] w']; [done|]. simpl.
  destruct H as [_ [[Heq|(u & Heq & _ & _ & Hfresh)]|[id Ht]]];
    [by rewrite Heq|rewrite Heq|].
  - by apply unique_accounts_snoc.
  - apply at_most_touched_credentials in Ht.
    destruct Hu as [Hun Hem]. split.
    + replace (username <$> store w')
        with ((fun c => c.1.1.1.1.2) <$> (credentials <$> store w'))
        by (rewrite <- list_fmap_compose; done).
      rewrite Ht, <- list_fmap_compose. done.
    + replace (email <$> store w')
        with ((fun c => c.1.1.1.2) <$> (credentials <$> store w'))
        by (rewrite <- list_fmap_compose; done).
      rewrite Ht, <- list_fmap_compose. done.
Qed.

(** *** The favorites routes end to end *)

Lemma get_favorites_run req_user u w :
  find_user (doc_id req_user) (store w) = Some u ->
  get_favorites req_user w =
    (inr (mkResponse 200
            (JObj [("success", JBool true);
                   ("favorites", JArr (omap resolved (favorites u)))])),
     logged w (EvFindById (JOid (doc_id req_user))
               :: ((fun fav => EvTmdbGet (movieId fav)) <$> favorites u))).
Proof.
  intros Hu. unfold get_favorites, try_catch. unfold bind at 1.
  rewrite findById_oid, Hu. simpl. unfold bind at 1. simpl.
  unfold ret at 1. unfold bind. rewrite mapM_fetch_favorite.
  unfold ret. rewrite filter_Boolean_resolved, logged_app. done.
Qed.

Lemma claimed_user_names decoded userId o us u :
  js_get decoded "userId" = Some userId ->
  castObjectId userId = Some o ->
  find_user o us = Some u ->
  claimed_user decoded us = Some u.
Proof.
  intros Hid Hc Hu. unfold claimed_user. rewrite Hid. cbn [mbind option_bind].
  rewrite Hc. cbn [mbind option_bind]. exact Hu.
Qed.

(** X3: A request that does not get past the middleware (no token, a
    token that fails verification, or one whose user is not stored) is
    answered 401 on both favorites routes, and all that happened are
    reads: the handler is not run, the catalogue is not called and
    nothing is written. *)
Theorem rejected_favorites_request_only_reads authorization req_body w :
  no_token_segment authorization \/
  (exists tok, bearer_token authorization = Some tok /\ tok <> "" /\
               forall decoded, jwt_verify tok JWT_SECRET (clock w) = Some decoded ->
                               claimed_user decoded (store w) = None) ->
  exists message evs,
    serve (GetFavorites authorization) w
    = (inr (failure 401 message), logged w evs) /\
    serve (PostFavorites authorization req_body) w
    = (inr (failure 401 message), logged w evs) /\
    Forall read_only evs.
Proof.
  intros [Hno|(tok & Htok & Hne & Hrej)]; simpl; unfold authenticated, bind.
  - apply token_missing_spec in Hno.
    rewrite (authenticateToken_no_token _ _ Hno).
    exists "Access token required", []. rewrite logged_nil. by repeat split.
  - rewrite (authenticateToken_run _ _ _ Htok Hne).
    destruct (jwt_verify tok JWT_SECRET (clock w)) as [decoded|].
    + rewrite (Hrej decoded eq_refl).
      destruct (js_get decoded "userId") as [userId|].
      * exists "Invalid token", [EvJwtVerify tok; EvFindById userId].
        repeat split; repeat constructor.
      * exists "Invalid token", [EvJwtVerify tok].
        repeat split; repeat constructor.
    + exists "Invalid token", [EvJwtVerify tok].
      repeat split; repeat constructor.
Qed.

(** X4: With a token whose verified userId claim casts to the identifier
    of a stored user (the claim of a real token is the identifier's
    24-digit hexadecimal string), the listing route answers with the
    favorites of that very user: the store is read by the claim and then
    by the user's identifier, the catalogue is asked for that user's
    movies, in order, and for no others, and the reply lists, for each
    movie the catalogue resolved, the six fields of the catalogue's
    detail and the favorite's own addedAt. *)
Theorem listing_is_of_token_user authorization tok decoded userId o u w :
  bearer_token authorization = Some tok -> tok <> "" ->
  jwt_verify tok JWT_SECRET (clock w) = Some decoded ->
  js_get decoded "userId" = Some userId ->
  castObjectId userId = Some o ->
  find_user o (store w) = Some u ->
  serve (GetFavorites authorization) w =
    (inr (mkResponse 200
            (JObj [("success", JBool true);
                   ("favorites", JArr (expected_listing (favorites u)))])),
     logged w ([EvJwtVerify tok; EvFindById userId;
                EvFindById (JOid (_id u))]
               ++ ((fun fav => EvTmdbGet (movieId fav)) <$> favorites u))).
Proof.
  intros Htok Hne Hv Hid Hc Hu. simpl. unfold authenticated, bind.
  rewrite (authenticateToken_run _ _ _ Htok Hne), Hv, Hid.
  rewrite (claimed_user_names _ _ _ _ _ Hid Hc Hu).
  pose proof (find_user_id _ _ _ Hu) as Ho. subst o.
  rewrite (get_favorites_run _ u); [|exact Hu].
  by rewrite logged_app, omap_resolved_expected.
Qed.

(** X8: A favorite that was just added is listed, and listed last: after
    adding a movie that is neither 0 nor already a favorite, the listing
    is the one before followed by the new movie's summary (when the
    catalogue resolves it), which carries the time of the add. *)
Theorem added_favorite_is_listed_last req_user req_body m u w :
  js_get req_body "movieId" = Some (JNum m) -> m <> 0 ->
  find_user (doc_id req_user) (store w) = Some u ->
  m ∉ movieId <$> favorites u ->
  let w1 := snd (add_favorite req_user req_body w) in
  fst (get_favorites req_user w1) =
    inr (mkResponse 200
           (JObj [("success", JBool true);
                  ("favorites",
                   JArr (omap resolved (favorites u)
                         ++ match resolved (mkFavorite m (clock w)) with
                            | Some summary => [summary]
                            | None => []
                            end))])).
Proof.
  intros Hget Hm Hu Hnew w1. subst w1.
  rewrite (add_favorite_run _ _ _ w Hget Hm), Hu.
  assert (Hex : existsb (fun fav => Z.eqb (movieId fav) m) (favorites u) = false).
  { apply not_true_iff_false. intros Hex.
    apply existsb_exists in Hex as (fav & Hin & Heq).
    apply Z.eqb_eq in Heq. subst m. apply Hnew.
    apply list_elem_of_fmap. exists fav. split; [done|].
    by apply list_elem_of_In. }
  rewrite Hex. cbn [snd].
  rewrite (get_favorites_run _ (with_favorite (clock w) m u)).
  - cbn [fst with_favorite favorites]. rewrite omap_app. done.
  - cbn [store].
    by apply (find_user_update_first _
                (fun _ => with_favorite (clock w) m u) _ u Hu).
Qed.

(** *** Registering, then logging in *)

Lemma find_snoc {A} (f : A -> bool) l x :
  existsb f l = false -> f x = true -> List.find f (l ++ [x]) = Some x.
Proof.
  induction l as [|y l IH]; simpl.
  - intros _ ->. done.
  - destruct (f y); [done|]. simpl. apply IH.
Qed.

(** X5: Provided bcrypt accepts a password against its own hash, a user
    who has just registered can log in: after a registration with a
    free username and email, a login with the same email and password
    is answered 200 "Login successful" with the identifier, username
    and email that the registration returned. *)
Theorem register_then_login reg_body login_body u e p w :
  (forall plain salt, bcrypt_compare plain (bcrypt_hash plain 12 salt) = true) ->
  js_get reg_body "username" = Some (JStr u) ->
  js_get reg_body "email" = Some (JStr e) ->
  js_get reg_body "password" = Some (JStr p) ->
  js_get login_body "email" = Some (JStr e) ->
  js_get login_body "password" = Some (JStr p) ->
  u <> "" -> e <> "" -> p <> "" ->
  ~ (exists x, x ∈ store w /\ (email x = e \/ username x = u)) ->
  let account := JObj [("id", JOid (next_oid w)); ("username", JStr u);
                       ("email", JStr e)] in
  let token := JStr (jwt_sign (JObj [("userId", JOid (next_oid w));
                                     ("email", JStr e)])
                              JWT_SECRET "7d" (clock w)) in
  fst (register reg_body w) =
    inr (mkResponse 201
           (JObj [("success", JBool true);
                  ("message", JStr "User registered successfully");
                  ("user", account); ("token", token)])) /\
  fst (login login_body (snd (register reg_body w))) =
    inr (mkResponse 200
           (JObj [("success", JBool true);
                  ("message", JStr "Login successful");
                  ("user", account); ("token", token)])).
Proof.
  intros Hbcrypt Hru Hre Hrp Hle Hlp Hune Hene Hpne Hfree account token.
  rewrite (register_run _ _ _ _ _ Hru Hre Hrp Hune Hene Hpne).
  destruct (existsb (matches (QEmailOrUsername e u)) (store w)) eqn:Hex.
  { by apply existsb_matches_or in Hex. }
  split; [done|]. cbn [snd].
  rewrite (login_run _ _ _ _ Hle Hlp Hene Hpne). cbn [store clock].
  rewrite find_snoc.
  - cbn [password _id username email]. by rewrite Hbcrypt.
  - apply not_true_iff_false. intros Hex'. apply not_true_iff_false in Hex.
    apply Hex. apply existsb_exists in Hex' as (x & Hin & Hm).
    apply existsb_exists. exists x. split; [done|]. simpl in *.
    by rewrite Hm.
  - simpl. apply String.eqb_refl.
Qed.

(** *** Logging in *)

(** X11: A login with a non-empty email and password succeeds exactly when
    the first stored user with that email has a hash that bcrypt
    accepts for the password; every other such login is answered 401,
    and the successful one returns that user's identifier, username
    and email. *)
Theorem login_succeeds_iff req_body e p w :
  js_get req_body "email" = Some (JStr e) ->
  js_get req_body "password" = Some (JStr p) ->
  e <> "" -> p <> "" ->
  let accepted u := List.find (matches (QEmail e)) (store w) = Some u /\
                    bcrypt_compare p (password u) = true in
  (forall u, accepted u ->
     exists token,
       fst (login req_body w) =
         inr (mkResponse 200
                (JObj [("success", JBool true);
                       ("message", JStr "Login successful");
                       ("user", JObj [("id", JOid (_id u));
                                      ("username", JStr (username u));
                                      ("email", JStr (email u))]);
                       ("token", JStr token)]))) /\
  (~ (exists u, accepted u) ->
     fst (login req_body w) = inr (failure 401 "Invalid email or password")).
Proof.
  intros He Hp Hene Hpne accepted.
  rewrite (login_run _ _ _ _ He Hp Hene Hpne). split.
  - intros u [Hfind Hok]. rewrite Hfind, Hok. by eexists.
  - intros Hno.
    destruct (List.find (matches (QEmail e)) (store w)) as [u|] eqn:Hfind;
      [|done].
    destruct (bcrypt_compare p (password u)) eqn:Hok; [|done].
    destruct Hno. by exists u.
Qed.

(** *** From the client's header to the middleware *)

Lemma split_not_nil sep s : split sep s <> [].
Proof.
  destruct s as [|c s]; simpl; [done|].
  destruct (Ascii.eqb c sep); [done|]. by destruct (split sep s).
Qed.

Lemma split_no_sep sep s :
  (forall c, In c (list_ascii_of_string s) -> c <> sep) -> split sep s = [s].
Proof.
  induction s as [|c s IH]; simpl; [done|]. intros Hs.
  assert (Hc : Ascii.eqb c sep = false)
    by (apply Ascii.eqb_neq, Hs; by left).
  rewrite Hc, IH; [done|]. intros c' Hc'. apply Hs. by right.
Qed.

Lemma bearer_token_header tok :
  bearer_token (Some (authorization_header (Some tok))) = head (split " " tok).
Proof.
  assert (Hsplit : split " " ("Bearer " +:+ tok) = "Bearer" :: split " " tok)
    by reflexivity.
  change (nth_error (split " " ("Bearer " +:+ tok)) 1 = head (split " " tok)).
  rewrite Hsplit. by destruct (split " " tok).
Qed.

Lemma find_user_snoc id us u :
  (forall x, x ∈ us -> _id x <> id) -> _id u = id ->
  find_user id (us ++ [u]) = Some u.
Proof.
  intros Hfresh Hid. unfold find_user. apply find_snoc.
  - apply not_true_iff_false. intros Hex.
    apply existsb_exists in Hex as (x & Hin & Heq).
    apply Nat.eqb_eq in Heq. by apply (Hfresh x); [apply list_elem_of_In|].
  - by apply Nat.eqb_eq.
Qed.

(** X12: The token a registration returns opens the middleware: when the
    verifier accepts the token the signer issued and the userId claim of
    what it decodes to (whatever else the decoded payload carries, such
    as the issue and expiry times, and in whatever form the identifier
    comes back, such as its hexadecimal string) casts to the new
    identifier, the token contains no space, and the new identifier is
    not in use, a request carrying the client's header for that token
    right after the registration is let through as the newly stored
    user, without the password hash. *)
Theorem registered_token_opens_middleware reg_body u e p decoded userId w :
  js_get reg_body "username" = Some (JStr u) ->
  js_get reg_body "email" = Some (JStr e) ->
  js_get reg_body "password" = Some (JStr p) ->
  u <> "" -> e <> "" -> p <> "" ->
  ~ (exists x, x ∈ store w /\ (email x = e \/ username x = u)) ->
  (forall x, x ∈ store w -> _id x <> next_oid w) ->
  let payload := JObj [("userId", JOid (next_oid w)); ("email", JStr e)] in
  let token := jwt_sign payload JWT_SECRET "7d" (clock w) in
  token <> "" ->
  (forall c, In c (list_ascii_of_string token) -> c <> " "%char) ->
  jwt_verify token JWT_SECRET (clock w) = Some decoded ->
  js_get decoded "userId" = Some userId ->
  castObjectId userId = Some (next_oid w) ->
  fst (authenticateToken (Some (authorization_header (Some token)))
                         (snd (register reg_body w)))
  = inr (inr (mkDoc (next_oid w) u e None [] [] false [])).
Proof.
  intros Hru Hre Hrp Hune Hene Hpne Hfree Hfresh payload token Htok Hnosp Hv
         Hid Hc.
  rewrite (register_run _ _ _ _ _ Hru Hre Hrp Hune Hene Hpne).
  destruct (existsb (matches (QEmailOrUsername e u)) (store w)) eqn:Hex.
  { by apply existsb_matches_or in Hex. }
  cbn [snd].
  assert (Hb : bearer_token (Some (authorization_header (Some token)))
               = Some token).
  { rewrite bearer_token_header, split_no_sep; done. }
  rewrite (authenticateToken_run _ _ _ Hb Htok). cbn [clock store].
  fold payload. fold token. rewrite Hv, Hid.
  set (new := mkUser (next_oid w) u e (bcrypt_hash p 12 (next_salt w)) [] []
                     (clock w) (clock w)).
  assert (Hnew : find_user (next_oid w) (store w ++ [new]) = Some new)
    by (by apply find_user_snoc).
  by rewrite (claimed_user_names _ _ _ _ _ Hid Hc Hnew).
Qed.

End Server.

(** X1: The header the client builds and the token the middleware reads
    agree: for a stored token without a space the middleware extracts
    exactly that token; with nothing stored it extracts the text "null",
    not an absent token. *)
Theorem bearer_token_of_client_header tok :
  (forall c, In c (list_ascii_of_string tok) -> c <> " "%char) ->
  bearer_token (Some (authorization_header (Some tok))) = Some tok /\
  bearer_token (Some (authorization_header None)) = Some "null" /\
  token_missing (bearer_token (Some (authorization_header None))) = false.
Proof.
  intros Hnosp. split; [|done].
  by rewrite bearer_token_header, split_no_sep.
Qed.

(** ** Session tokens: round trip and rejection *)

(** C7: a token issued for a user identifier and an email verifies, at
    any time before its expiry, to exactly those two claims; a token
    whose signature is not the one the secret gives its payload, a
    malformed token, and a token whose expiry has passed all fail with
    InvalidToken. *)
Theorem verify_issue_roundtrip sign secret t uid mail :
  (forall t', t' < t + SessionToken.lifetime ->
     SessionToken.verify sign secret t'
       (SessionToken.issue sign secret t uid mail)
     = inr (SessionToken.mkClaims uid mail)) /\
  (forall p sig t', sig <> sign secret p ->
     SessionToken.verify sign secret t' (SessionToken.Signed p sig)
     = inl SessionToken.InvalidToken) /\
  (forall raw t',
     SessionToken.verify sign secret t' (SessionToken.Malformed raw)
     = inl SessionToken.InvalidToken) /\
  (forall p sig t', SessionToken.expiry p < t' ->
     SessionToken.verify sign secret t' (SessionToken.Signed p sig)
     = inl SessionToken.InvalidToken).
Proof.
  repeat split.
  - intros t' Hlive. unfold SessionToken.issue, SessionToken.verify.
    rewrite String.eqb_refl. simpl.
    destruct (Z.leb_spec (t + SessionToken.lifetime) t'); [lia|done].
  - intros p sig t' Hsig. unfold SessionToken.verify.
    apply String.eqb_neq in Hsig. by rewrite Hsig.
  - intros p sig t' Hpast. unfold SessionToken.verify.
    destruct (negb _); [done|].
    destruct (Z.leb_spec (SessionToken.expiry p) t'); [done|lia].
Qed.

(** ** The properties at the sample data *)

Lemma verify_issue_roundtrip_sample :
  SessionToken.verify sample_mac "s3cret" 5000
    (SessionToken.issue sample_mac "s3cret" 5000 7%nat "a@x.com")
  = inr (SessionToken.mkClaims 7%nat "a@x.com") /\
  SessionToken.verify sample_mac "s3cret" 5000
    (SessionToken.Signed
       (SessionToken.mkPayload (SessionToken.mkClaims 7%nat "a@x.com") 5000 609800)
       "forged")
  = inl SessionToken.InvalidToken /\
  SessionToken.verify sample_mac "s3cret" 5000
    (SessionToken.Signed
       (SessionToken.mkPayload (SessionToken.mkClaims 7%nat "a@x.com") 1000 4000)
       "s3cret/a@x.com")
  = inl SessionToken.InvalidToken.
Proof.
  pose proof (verify_issue_roundtrip sample_mac "s3cret" 5000 7%nat "a@x.com")
    as (Hok & Hsig & _ & Hpast).
  split; [apply Hok; unfold SessionToken.lifetime; lia|].
  split; [apply Hsig; discriminate|].
  apply Hpast. simpl. lia.
Defined.

Lemma authenticateToken_requires_token_sample :
  authenticateToken "s3cret" sample_verify sample_cast_oid (Some "Bearer")
    sample_world
  = (inr (inl (failure 401 "Access token required")), sample_world).
Proof.
  apply authenticateToken_requires_token. simpl. by left.
Defined.

(** A header with another scheme word is not of the Bearer form, yet
    its second segment is handed to the verifier and the reply is
    "Invalid token". *)
Lemma authenticateToken_ignores_scheme :
  ~ bearer_form "Basic abc" /\
  authenticateToken "s3cret" sample_verify sample_cast_oid (Some "Basic abc")
    sample_world
  = (inr (inl (failure 401 "Invalid token")),
     logged sample_world [EvJwtVerify "abc"]) /\
  fst (authenticateToken "s3cret" sample_verify sample_cast_oid
         (Some "Basic abc") sample_world)
  <> inr (inl (failure 401 "Access token required")).
Proof.
  split; [|split].
  - intros (tok & _ & Heq). discriminate.
  - reflexivity.
  - discriminate.
Qed.

Lemma authenticateToken_with_token_sample :
  fst (authenticateToken "s3cret" sample_verify sample_cast_oid
         (Some "Bearer good") sample_world)
  = inr (inr (mkDoc 7%nat "ana" "a@x.com" None
                    [mkFavorite 101 1000; mkFavorite 202 2000;
                     mkFavorite 303 3000] [] false [])).
Proof.
  pose proof (authenticateToken_with_token "s3cret" sample_verify
                sample_cast_oid (Some "Bearer good") "good" sample_world
                eq_refl) as H.
  destruct H as (_ & H & _); [discriminate|].
  apply (H sample_decoded sample_user eq_refl).
  exists (JStr "000000000000000000000007"), 7%nat. by repeat split.
Defined.

Lemma get_favorites_resolved_sample :
  get_favorites sample_tmdb sample_cast_oid sample_req_user sample_world
  = (inr (mkResponse 200
            (JObj [("success", JBool true);
                   ("favorites", JArr [sample_summary 101 1000;
                                       sample_summary 303 3000])])),
     logged sample_world [EvFindById (JOid 7%nat); EvTmdbGet 101;
                          EvTmdbGet 202; EvTmdbGet 303]).
Proof.
  exact (proj1 (get_favorites_resolved sample_tmdb sample_cast_oid
                  sample_req_user sample_user sample_world eq_refl)).
Defined.

Lemma add_favorite_requires_movieId_sample :
  add_favorite sample_hash no_cast_number sample_cast_oid sample_req_user
    (JObj [("movieId", JNum 0)]) sample_world
  = (inr (failure 400 "Movie ID is required"), sample_world).
Proof.
  apply (add_favorite_requires_movieId sample_hash no_cast_number
           sample_cast_oid sample_req_user (JObj [("movieId", JNum 0)])
           (JNum 0));
    reflexivity.
Defined.

Lemma save_hashes_iff_password_modified_sample :
  let d := mkDoc 8%nat "bob" "b@x.com" (Some "secret2") [] [] true
                 ["username"; "email"; "password"] in
  let w' := snd (save sample_hash d sample_world) in
  isModified d "password" = true /\
  (exists p, EvBcryptHash p ∈ trace w') /\
  exists u', u' ∈ store w' /\ _id u' = 8%nat /\ password u' = "hash:secret2".
Proof.
  intros d w'.
  destruct (save_hashes_iff_password_modified sample_hash d
              (persisted (set_password d "hash:secret2")) sample_world w'
              eq_refl)
    as (evs & Htrace & Hiff & Hmod & _).
  split; [reflexivity|]. split.
  - destruct (proj2 Hiff eq_refl) as [p Hp]. exists p.
    rewrite Htrace. apply elem_of_app. by right.
  - destruct (Hmod eq_refl)
      as (p & hash & Hp & Hhash & _ & _ & u' & Hin & Hid & Hpw).
    injection Hp as <-. subst hash.
    exists u'. split; [exact Hin|]. split; [exact Hid|]. exact Hpw.
Defined.

Lemma register_conflict_or_created_sample :
  register "s3cret" sample_sign sample_hash no_cast_string sample_message
    (JObj [("username", JStr "bob"); ("email", JStr "a@x.com");
           ("password", JStr "secret2")]) sample_world
  = (inr (failure 400 "User already exists with this email or username"),
     logged sample_world [EvFindOne (QEmailOrUsername "a@x.com" "bob")]).
Proof.
  pose proof (register_conflict_or_created "s3cret" sample_sign sample_hash
                no_cast_string sample_message
                (JObj [("username", JStr "bob"); ("email", JStr "a@x.com");
                       ("password", JStr "secret2")])
                (JStr "bob") (JStr "a@x.com") (JStr "secret2") sample_world
                eq_refl eq_refl eq_refl) as [_ H].
  destruct (H "bob" "a@x.com" "secret2" eq_refl eq_refl eq_refl)
    as [Hconflict _]; try discriminate.
  apply Hconflict. exists sample_user. split; [left|by left].
Defined.

(** With an empty username the reply is not the conflict, although the
    email is taken; and with an empty password and nothing taken, no
    user is created. *)
Lemma register_empty_field_not_conflict :
  let taken := JObj [("username", JStr ""); ("email", JStr "a@x.com");
                     ("password", JStr "secret1")] in
  let free := JObj [("username", JStr "bob"); ("email", JStr "b@x.com");
                    ("password", JStr "")] in
  let run b := register "s3cret" sample_sign sample_hash no_cast_string
                        sample_message b sample_world in
  (exists x, x ∈ store sample_world /\ email x = "a@x.com") /\
  run taken = (inr (failure 400 "All fields are required"), sample_world) /\
  fst (run taken)
  <> inr (failure 400 "User already exists with this email or username") /\
  ~ (exists x, x ∈ store sample_world /\
               (email x = "b@x.com" \/ username x = "bob")) /\
  run free = (inr (failure 400 "All fields are required"), sample_world) /\
  (forall r, fst (run free) = inr r -> status r <> 201).
Proof.
  repeat split; try discriminate.
  - exists sample_user. split; [left|done].
  - intros (x & Hx & Hm). apply list_elem_of_singleton in Hx. subst x.
    by destruct Hm.
  - intros r [= <-]. discriminate.
Qed.

Lemma login_failures_same_reply_sample :
  let unknown := JObj [("email", JStr "nobody@x.com"); ("password", JStr "secret1")] in
  let wrong := JObj [("email", JStr "a@x.com"); ("password", JStr "guess")] in
  let run b := login "s3cret" sample_sign sample_compare no_cast_string
                     sample_message b sample_world in
  fst (run unknown) = inr (failure 401 "Invalid email or password") /\
  fst (run wrong) = fst (run unknown).
Proof.
  intros unknown wrong run.
  assert (Hunregistered :
            forall x, x ∈ store sample_world -> email x <> "nobody@x.com").
  { intros x Hx. apply list_elem_of_singleton in Hx. by subst x. }
  pose proof (login_failures_same_reply "s3cret" sample_sign sample_compare
                no_cast_string sample_message unknown wrong
                "nobody@x.com" "secret1" "a@x.com" "guess" sample_user
                sample_world eq_refl eq_refl eq_refl eq_refl
                ltac:(discriminate) ltac:(discriminate)
                ltac:(discriminate) ltac:(discriminate)
                Hunregistered eq_refl eq_refl) as (H1 & H2 & _).
  split; [exact H1|exact H2].
Defined.

(** The two failing logins get the same reply but do not do the same
    work: only the one for the registered email calls bcrypt.  And with
    an empty password the unregistered email is answered 400, not 401. *)
Lemma login_failures_differ_in_work :
  let unknown := JObj [("email", JStr "nobody@x.com"); ("password", JStr "secret1")] in
  let wrong := JObj [("email", JStr "a@x.com"); ("password", JStr "guess")] in
  let blank := JObj [("email", JStr "nobody@x.com"); ("password", JStr "")] in
  let run b := login "s3cret" sample_sign sample_compare no_cast_string
                     sample_message b sample_world in
  fst (run unknown) = inr (failure 401 "Invalid email or password") /\
  fst (run wrong) = inr (failure 401 "Invalid email or password") /\
  call_of <$> trace (snd (run unknown)) = [StoreCall] /\
  call_of <$> trace (snd (run wrong)) = [StoreCall; BcryptCall] /\
  ~ same_calls (snd (run unknown)) (snd (run wrong)) /\
  fst (run blank) = inr (failure 400 "Email and password are required") /\
  fst (run blank) <> fst (run wrong).
Proof.
  repeat split; discriminate.
Qed.

Lemma add_favorite_twice_conflict_sample :
  let body := JObj [("movieId", JNum 404)] in
  let run := add_favorite sample_hash no_cast_number sample_cast_oid
                          sample_req_user body in
  fst (run (snd (run sample_world)))
  = inr (failure 400 "Movie already in favorites").
Proof.
  intros body run.
  refine (proj1 (proj1 (add_favorite_twice_conflict "s3cret" sample_sign
                          sample_verify sample_hash sample_compare sample_tmdb
                          no_cast_string no_cast_number sample_cast_oid
                          sample_message)
                   sample_req_user body 404 sample_user sample_world
                   eq_refl _ eq_refl _)).
  - discriminate.
  - simpl. repeat constructor; rewrite ?elem_of_cons, ?elem_of_nil; lia.
Defined.

(** Outside the numbers the duplicate check and the schema cast part
    ways: the stored Number 101 is not strictly equal to the string
    "101", which the schema then casts to 101, so the favorite is stored
    a second time. *)
Lemma add_favorite_numeric_string_duplicates :
  let body := JObj [("movieId", JStr "101")] in
  let run := add_favorite sample_hash cast_numeric_string sample_cast_oid
                          sample_req_user body in
  favorites_unique (store sample_world) /\
  fst (run sample_world)
  = inr (mkResponse 200 (JObj [("success", JBool true);
                               ("message", JStr "Movie added to favorites")])) /\
  (fun u => movieId <$> favorites u)
    <$> find_user 7%nat (store (snd (run sample_world)))
  = Some [101; 202; 303; 101] /\
  ~ favorites_unique (store (snd (run sample_world))).
Proof.
  repeat split.
  - repeat constructor; rewrite ?elem_of_cons, ?elem_of_nil; simpl; lia.
  - intros H. apply Forall_inv, NoDup_cons in H as [Hfresh _].
    apply Hfresh. simpl. rewrite !elem_of_cons. tauto.
Qed.

(** Movie identifier 0: the second add is not refused as a duplicate,
    and the user has no favorite for it afterwards. *)
Lemma add_favorite_zero_not_conflict :
  let body := JObj [("movieId", JNum 0)] in
  let run := add_favorite sample_hash no_cast_number sample_cast_oid
                          sample_req_user body in
  let second := run (snd (run sample_world)) in
  fst second = inr (failure 400 "Movie ID is required") /\
  fst second <> inr (failure 400 "Movie already in favorites") /\
  find_user 7%nat (store (snd second)) = Some sample_user /\
  entries_for 0 sample_user = 0%nat.
Proof.
  repeat split. discriminate.
Qed.

(** The guard tests the value of the body, the schema stores its cast:
    the string "0" is truthy and strictly equal to no stored Number, and
    the schema casts it to the number 0, so the request is answered 200
    and movie identifier 0 is added as a favorite. *)
Lemma add_favorite_string_zero_is_stored :
  let body := JObj [("movieId", JStr "0")] in
  let run := add_favorite sample_hash cast_zero_string sample_cast_oid
                          sample_req_user body in
  js_truthy (JStr "0") = true /\
  entries_for 0 sample_user = 0%nat /\
  fst (run sample_world)
  = inr (mkResponse 200 (JObj [("success", JBool true);
                               ("message", JStr "Movie added to favorites")])) /\
  (fun u => movieId <$> favorites u)
    <$> find_user 7%nat (store (snd (run sample_world)))
  = Some [101; 202; 303; 0] /\
  entries_for 0 <$> find_user 7%nat (store (snd (run sample_world)))
  = Some 1%nat.
Proof.
  repeat split.
Qed.

(** ** The catalogue proxies: properties *)

Section CatalogProperties.

Context (tmdb_request : string -> list (string * JsVal) -> Thrown + JsVal)
        (type_error_message : JsVal -> string -> string).

Lemma p_get_present v k : nullish v = false -> p_get type_error_message v k = ([], inr (js_get_optional v k)).
Proof. unfold p_get, js_get_optional. by destruct v. Qed.

Lemma p_get_calls v k : fst (p_get type_error_message v k) = [].
Proof. unfold p_get. by destruct (js_get v k). Qed.

Lemma p_get_value v k x : snd (p_get type_error_message v k) = inr x -> nullish v = false.
Proof. unfold p_get. by destruct v. Qed.

Lemma p_bind_calls {A B} (m : Proxy A) (k : A -> Proxy B) :
  fst m = [] -> (forall a, fst (k a) = []) -> fst (p_bind m k) = [].
Proof.
  destruct m as [calls [e|a]]; simpl; intros ->; [done|].
  intros Hk. by rewrite Hk.
Qed.

Lemma p_mapM_calls {A B} (f : A -> Proxy B) xs :
  (forall x, fst (f x) = []) -> fst (p_mapM f xs) = [].
Proof.
  intros Hf. induction xs as [|x xs IH]; [done|].
  simpl. apply p_bind_calls; [done|]. intros y.
  by apply p_bind_calls.
Qed.

Lemma p_pick_calls keys v : fst (p_pick type_error_message keys v) = [].
Proof.
  apply p_mapM_calls. intros k. apply p_bind_calls; [apply p_get_calls|done].
Qed.

Lemma p_map_calls v f : (forall x, fst (f x) = []) -> fst (p_map type_error_message v f) = [].
Proof.
  intros Hf. unfold p_map. destruct v; try done.
  apply p_bind_calls; [by apply p_mapM_calls|done].
Qed.

Lemma p_first_calls data section key n : fst (p_first type_error_message data section key n) = [].
Proof.
  unfold p_first. apply p_bind_calls; [apply p_get_calls|]. intros parent.
  destruct parent; try done;
    (apply p_bind_calls; [apply p_get_calls|]; intros all;
     by destruct (js_slice all n)).
Qed.

Lemma p_mapM_total {A B} (f : A -> Proxy B) (g : A -> B) xs :
  (forall x, x ∈ xs -> f x = ([], inr (g x))) ->
  p_mapM f xs = ([], inr (g <$> xs)).
Proof.
  induction xs as [|x xs IH]; [done|]. intros Hf.
  simpl. rewrite Hf by left. simpl.
  rewrite IH; [done|]. intros y Hy. apply Hf. by right.
Qed.

Lemma p_pick_present keys v :
  nullish v = false ->
  p_pick type_error_message keys v = ([], inr ((fun k => (k, js_get_optional v k)) <$> keys)).
Proof.
  intros Hv. unfold p_pick. apply p_mapM_total. intros k _.
  by rewrite p_get_present.
Qed.

(** One reshaped item per upstream item. *)
Lemma p_map_items keys items :
  Forall (fun item => nullish item = false) items ->
  p_map type_error_message (JArr items)
        (fun movie => let+ fs := p_pick type_error_message keys movie in p_ret (JObj fs))
  = ([], inr (JArr (picked keys <$> items))).
Proof.
  intros Hitems. unfold p_map.
  rewrite (p_mapM_total _ (picked keys)); [done|].
  intros item Hin. rewrite Forall_forall in Hitems.
  by rewrite p_pick_present by by apply Hitems.
Qed.

Lemma p_bind_fst {A B} (m : Proxy A) (k : A -> Proxy B) :
  fst (p_bind m k) = fst m ++ match snd m with
                              | inr a => fst (k a)
                              | inl _ => []
                              end.
Proof. destruct m as [calls [e|a]]; simpl; by rewrite ?app_nil_r. Qed.

Lemma p_bind_inr {A B} (m : Proxy A) (k : A -> Proxy B) r :
  snd (p_bind m k) = inr r -> exists a, snd m = inr a /\ snd (k a) = inr r.
Proof. destruct m as [calls [e|a]]; simpl; [done|]. by exists a. Qed.

Lemma p_catch_fst m h : fst (p_catch m h) = fst m.
Proof. by destruct m as [calls [e|r]]. Qed.

Lemma p_catch_snd m h :
  snd (p_catch m h) = match snd m with inr r => r | inl e => h e end.
Proof. by destruct m as [calls [e|r]]. Qed.

Lemma upstream_failure_envelope message error :
  envelope (upstream_failure message error) /\
  status (upstream_failure message error) = 500.
Proof. split; [|done]. split; [simpl; auto 10|reflexivity]. Qed.

Lemma length_substring_le n s : (String.length (String.substring 0 n s) <= n)%nat.
Proof.
  revert s. induction n as [|n IH]; intros s.
  - by destruct s.
  - destruct s as [|c s]; simpl; [lia|]. specialize (IH s). lia.
Qed.

Lemma js_slice_at_most v n part : js_slice v n = Some part -> at_most n part.
Proof.
  destruct v; try done; intros [= <-]; simpl.
  - apply length_substring_le.
  - rewrite length_take. lia.
Qed.

Lemma js_or_at_most n part : at_most n part -> at_most n (js_or part (JArr [])).
Proof. unfold js_or. destruct (js_truthy part); [done|]. simpl. lia. Qed.

Lemma p_first_cases data section key n :
  (exists e, p_first type_error_message data section key n = ([], inl e)) \/
  (exists v, p_first type_error_message data section key n = ([], inr v) /\
             at_most n v).
Proof.
  unfold p_first, p_get.
  destruct (js_get data section) as [parent|] eqn:Hp; simpl; [|by eauto].
  assert (Hempty : at_most n (JArr [])) by (simpl; lia).
  destruct parent; simpl;
    try (right; exists (JArr []); split; [reflexivity|exact Hempty]);
    try (left; eexists; reflexivity).
  destruct (js_slice (default JUndefined (assoc key fields)) n)
    as [part|] eqn:Hs; simpl.
  - right. eexists. split; [reflexivity|].
    by apply js_or_at_most, (js_slice_at_most _ _ _ Hs).
  - left. eexists. reflexivity.
Qed.

(** X13: The search route asks the catalogue exactly when there is a query:
    with a missing or empty [query] it answers 400 "Search query is
    required" without any call, and otherwise it makes exactly one
    call, to /search/movie, with the query and the page (1 when none
    was given). *)
Theorem search_asks_catalogue_iff_query req_query :
  nullish req_query = false ->
  let query := js_get_optional req_query "query" in
  let page := page_or_default (js_get_optional req_query "page") in
  (js_truthy query = false ->
   search_movies tmdb_request type_error_message req_query
   = ([], failure 400 "Search query is required")) /\
  (js_truthy query = true ->
   fst (search_movies tmdb_request type_error_message req_query)
   = [("/search/movie", [("query", query); ("page", page)])]).
Proof.
  intros Hq query page. unfold search_movies.
  rewrite (p_get_present _ "query" Hq). cbn [p_bind fst snd app].
  rewrite (p_get_present _ "page" Hq). cbn [p_bind fst snd app].
  fold query. fold page. split; intros Ht; rewrite Ht; cbn [negb].
  - done.
  - rewrite p_catch_fst, p_bind_fst. cbn [p_request fst snd].
    destruct (tmdb_request _ _) as [e|data]; [done|].
    rewrite p_bind_calls; [done|apply p_get_calls|]. intros results.
    apply p_bind_calls;
      [apply p_map_calls; intros x;
       apply p_bind_calls; [apply p_pick_calls|done]|].
    intros movies.
    apply p_bind_calls; [apply p_get_calls|]. intros tp.
    apply p_bind_calls; [apply p_get_calls|]. intros tr.
    apply p_bind_calls; [apply p_get_calls|]. done.
Qed.

(** X14: What the catalogue lists is reshaped item by item: when the
    catalogue answers with a [results] array of objects, the popular
    and search routes reply 200 with one object per upstream item, in
    the same order, made of the route's fields read off that item, and
    pass the paging fields through unchanged. *)
Theorem catalogue_lists_are_reshaped req_query data items :
  nullish req_query = false ->
  js_get data "results" = Some (JArr items) ->
  Forall (fun item => nullish item = false) items ->
  let query := js_get_optional req_query "query" in
  let page := page_or_default (js_get_optional req_query "page") in
  (tmdb_request "/movie/popular" [("page", page)] = inr data ->
   popular_movies tmdb_request type_error_message req_query
   = ([("/movie/popular", [("page", page)])],
      mkResponse 200
        (JObj [("success", JBool true);
               ("results", JArr (picked popular_fields <$> items));
               ("total_pages", js_get_optional data "total_pages");
               ("total_results", js_get_optional data "total_results");
               ("page", js_get_optional data "page")]))) /\
  (js_truthy query = true ->
   tmdb_request "/search/movie" [("query", query); ("page", page)] = inr data ->
   search_movies tmdb_request type_error_message req_query
   = ([("/search/movie", [("query", query); ("page", page)])],
      mkResponse 200
        (JObj [("success", JBool true);
               ("results", JArr (picked search_fields <$> items));
               ("total_pages", js_get_optional data "total_pages");
               ("total_results", js_get_optional data "total_results");
               ("page", js_get_optional data "page");
               ("query", query)]))).
Proof.
  intros Hq Hres Hitems query page.
  assert (Hdata : nullish data = false) by by destruct data.
  assert (Hresults : js_get_optional data "results" = JArr items)
    by (unfold js_get_optional; by rewrite Hres).
  split.
  - intros Hreq. unfold popular_movies.
    rewrite (p_get_present _ "page" Hq). cbn [p_bind fst snd app].
    fold page. unfold p_request. rewrite Hreq. cbn [p_bind fst snd app].
    rewrite (p_get_present _ "results" Hdata), Hresults.
    cbn [p_bind fst snd app].
    rewrite (p_map_items _ _ Hitems). cbn [p_bind fst snd app].
    rewrite !(p_get_present _ _ Hdata). done.
  - intros Ht Hreq. unfold search_movies.
    rewrite (p_get_present _ "query" Hq). cbn [p_bind fst snd app].
    rewrite (p_get_present _ "page" Hq). cbn [p_bind fst snd app].
    fold query. fold page. rewrite Ht. cbn [negb].
    unfold p_request. rewrite Hreq. cbn [p_bind fst snd app].
    rewrite (p_get_present _ "results" Hdata), Hresults.
    cbn [p_bind fst snd app].
    rewrite (p_map_items _ _ Hitems). cbn [p_bind fst snd app].
    rewrite !(p_get_present _ _ Hdata). done.
Qed.

Lemma movie_details_reply id data :
  tmdb_request ("/movie/" +:+ id)
               [("append_to_response", JStr "credits,videos,similar")]
  = inr data ->
  nullish data = false ->
  snd (movie_details tmdb_request type_error_message id) =
    match snd (p_first type_error_message data "credits" "cast" 10),
          snd (p_first type_error_message data "credits" "crew" 5),
          snd (p_first type_error_message data "similar" "results" 6) with
    | inr cast, inr crew, inr similar =>
        mkResponse 200
          (JObj [("success", JBool true);
                 ("data",
                  JObj (((fun k => (k, js_get_optional data k)) <$> detail_fields)
                        ++ [("cast", cast); ("crew", crew);
                            ("videos",
                             js_or (js_get_optional
                                      (js_get_optional data "videos") "results")
                                   (JArr []));
                            ("similar", similar)]))])
    | inl e, _, _ | inr _, inl e, _ | inr _, inr _, inl e =>
        upstream_failure "Error fetching movie details" e
    end.
Proof.
  intros Hreq Hdata. unfold movie_details. rewrite p_catch_snd.
  unfold p_request. rewrite Hreq. cbn [p_bind fst snd app].
  rewrite (p_pick_present _ _ Hdata). cbn [p_bind fst snd app].
  destruct (p_first_cases data "credits" "cast" 10)
    as [[e ->]|(cast & -> & _)]; [done|]. cbn [p_bind fst snd app].
  destruct (p_first_cases data "credits" "crew" 5)
    as [[e ->]|(crew & -> & _)]; [done|]. cbn [p_bind fst snd app].
  rewrite (p_get_present _ "videos" Hdata). cbn [p_bind fst snd app].
  destruct (p_first_cases data "similar" "results" 6)
    as [[e ->]|(similar & -> & _)]; done.
Qed.

(** X15: The detail route never passes on more than it promises: whenever
    it replies 200, the reply's [cast] has at most 10 entries, its
    [crew] at most 5 and its [similar] at most 6, whatever the catalogue
    sent. *)
Theorem movie_details_lists_are_bounded id :
  status (snd (movie_details tmdb_request type_error_message id)) = 200 ->
  exists fields cast crew similar,
    body (snd (movie_details tmdb_request type_error_message id))
    = JObj [("success", JBool true); ("data", JObj fields)] /\
    assoc "cast" fields = Some cast /\ at_most 10 cast /\
    assoc "crew" fields = Some crew /\ at_most 5 crew /\
    assoc "similar" fields = Some similar /\ at_most 6 similar.
Proof.
  destruct (tmdb_request ("/movie/" +:+ id)
              [("append_to_response", JStr "credits,videos,similar")])
    as [e|data] eqn:Hreq.
  { unfold movie_details, p_request. rewrite Hreq. done. }
  destruct (nullish data) eqn:Hdata.
  { unfold movie_details, p_request. rewrite Hreq.
    by destruct data. }
  rewrite (movie_details_reply _ _ Hreq Hdata).
  destruct (p_first_cases data "credits" "cast" 10)
    as [[e ->]|(cast & -> & Hcast)]; [done|].
  destruct (p_first_cases data "credits" "crew" 5)
    as [[e ->]|(crew & -> & Hcrew)]; [done|].
  destruct (p_first_cases data "similar" "results" 6)
    as [[e ->]|(similar & -> & Hsimilar)]; [done|].
  intros _. cbn [snd body]. eexists _, cast, crew, similar.
  split; [reflexivity|]. by repeat split.
Qed.

(** X16: Sections the catalogue leaves out come back as empty lists, but a
    [credits] object without a [cast] is an error: with no [credits],
    [videos] and [similar] in the upstream data the reply is 200 with
    four empty lists, while with a [credits] that has no [cast] the
    reply is 500 "Error fetching movie details". *)
Theorem movie_details_missing_sections id data :
  tmdb_request ("/movie/" +:+ id)
               [("append_to_response", JStr "credits,videos,similar")]
  = inr data ->
  nullish data = false ->
  (nullish (js_get_optional data "credits") = true ->
   nullish (js_get_optional data "videos") = true ->
   nullish (js_get_optional data "similar") = true ->
   snd (movie_details tmdb_request type_error_message id) =
     mkResponse 200
       (JObj [("success", JBool true);
              ("data",
               JObj (((fun k => (k, js_get_optional data k)) <$> detail_fields)
                     ++ [("cast", JArr []); ("crew", JArr []);
                         ("videos", JArr []); ("similar", JArr [])]))])) /\
  (nullish (js_get_optional data "credits") = false ->
   nullish (js_get_optional (js_get_optional data "credits") "cast") = true ->
   snd (movie_details tmdb_request type_error_message id) =
     mkResponse 500
       (JObj [("success", JBool false);
              ("message", JStr "Error fetching movie details");
              ("error",
               JStr (type_error_message
                       (js_get_optional (js_get_optional data "credits") "cast")
                       "slice"))])).
Proof.
  intros Hreq Hdata. rewrite (movie_details_reply _ _ Hreq Hdata).
  unfold p_first. rewrite !(p_get_present _ _ Hdata). cbn [p_bind fst snd app].
  split.
  - intros Hc Hv Hs.
    destruct (js_get_optional data "credits"); try discriminate;
      destruct (js_get_optional data "similar"); try discriminate;
      destruct (js_get_optional data "videos"); try discriminate; done.
  - intros Hc Hcast.
    assert (Hget : p_get type_error_message (js_get_optional data "credits") "cast"
                   = ([], inr (js_get_optional (js_get_optional data "credits")
                                               "cast")))
      by by apply p_get_present.
    destruct (js_get_optional data "credits") eqn:Hcredits; try discriminate;
      rewrite Hget; cbn [p_bind fst snd app];
      destruct (js_get_optional _ "cast"); try discriminate; done.
Qed.

(** X17: A failing catalogue call is reported, not retried or hidden: each
    route replies 500 with its own message after the one call it made,
    and the three movie routes add as [error] the upstream
    [status_message] when the failure carries one, and the failure's
    own message when there was no response at all. *)
Theorem catalogue_failure_is_reported req_query id e :
  nullish req_query = false ->
  let query := js_get_optional req_query "query" in
  let page := page_or_default (js_get_optional req_query "page") in
  (tmdb_request "/movie/popular" [("page", page)] = inl e ->
   popular_movies tmdb_request type_error_message req_query
   = ([("/movie/popular", [("page", page)])],
      upstream_failure "Error fetching movies from TMDB" e)) /\
  (js_truthy query = true ->
   tmdb_request "/search/movie" [("query", query); ("page", page)] = inl e ->
   search_movies tmdb_request type_error_message req_query
   = ([("/search/movie", [("query", query); ("page", page)])],
      upstream_failure "Error searching movies" e)) /\
  (tmdb_request ("/movie/" +:+ id)
                [("append_to_response", JStr "credits,videos,similar")] = inl e ->
   movie_details tmdb_request type_error_message id
   = ([("/movie/" +:+ id,
        [("append_to_response", JStr "credits,videos,similar")])],
      upstream_failure "Error fetching movie details" e)) /\
  (tmdb_request "/genre/movie/list" [] = inl e ->
   genres_list tmdb_request type_error_message
   = ([("/genre/movie/list", [])], failure 500 "Error fetching genres")) /\
  (forall m, js_truthy m = true ->
     js_get_optional (js_get_optional (thrown_response e) "data") "status_message"
     = m ->
     error_detail e = m) /\
  (thrown_response e = JUndefined -> error_detail e = JStr (thrown_message e)).
Proof.
  intros Hq query page. repeat split.
  - intros Hreq. unfold popular_movies.
    rewrite (p_get_present _ "page" Hq). cbn [p_bind fst snd app].
    fold page. unfold p_request. by rewrite Hreq.
  - intros Ht Hreq. unfold search_movies.
    rewrite (p_get_present _ "query" Hq). cbn [p_bind fst snd app].
    rewrite (p_get_present _ "page" Hq). cbn [p_bind fst snd app].
    fold query. fold page. rewrite Ht. cbn [negb].
    unfold p_request. by rewrite Hreq.
  - intros Hreq. unfold movie_details, p_request. by rewrite Hreq.
  - intros Hreq. unfold genres_list, p_request. by rewrite Hreq.
  - intros m Ht Hm. unfold error_detail, js_or. by rewrite Hm, Ht.
  - intros Hnone. unfold error_detail. by rewrite Hnone.
Qed.

Lemma listing_at_most_one_call path params keys extra :
  let m :=
    let+ data := p_request tmdb_request path params in
    let+ results := p_get type_error_message data "results" in
    let+ movies := p_map type_error_message results
                     (fun movie =>
                        let+ fs := p_pick type_error_message keys movie in
                        p_ret (JObj fs)) in
    let+ total_pages := p_get type_error_message data "total_pages" in
    let+ total_results := p_get type_error_message data "total_results" in
    let+ page' := p_get type_error_message data "page" in
    p_ret (mkResponse 200
             (JObj ([("success", JBool true); ("results", movies);
                     ("total_pages", total_pages);
                     ("total_results", total_results);
                     ("page", page')] ++ extra))) in
  fst m = [(path, params)] /\
  forall r, snd m = inr r -> status r = 200.
Proof.
  intros m. subst m. split.
  - rewrite p_bind_fst. cbn [p_request fst snd].
    destruct (tmdb_request path params) as [e|data]; [done|].
    rewrite p_bind_calls; [done|apply p_get_calls|]. intros results.
    apply p_bind_calls;
      [apply p_map_calls; intros x;
       apply p_bind_calls; [apply p_pick_calls|done]|].
    intros movies.
    apply p_bind_calls; [apply p_get_calls|]. intros tp.
    apply p_bind_calls; [apply p_get_calls|]. intros tr.
    apply p_bind_calls; [apply p_get_calls|]. done.
  - intros r Hr.
    apply p_bind_inr in Hr as (data & _ & Hr).
    apply p_bind_inr in Hr as (results & _ & Hr).
    apply p_bind_inr in Hr as (movies & _ & Hr).
    apply p_bind_inr in Hr as (tp & _ & Hr).
    apply p_bind_inr in Hr as (tr & _ & Hr).
    apply p_bind_inr in Hr as (pg & _ & Hr).
    by injection Hr as <-.
Qed.

(** X18: No proxy route lets an exception escape or calls the catalogue
    twice: whatever the request and whatever the catalogue does, each
    of the four routes makes at most one call and replies 200, 400 or
    500 with a [success] flag that agrees with the status. *)
Theorem catalogue_routes_call_at_most_once req_query id :
  let runs := [popular_movies tmdb_request type_error_message req_query;
               search_movies tmdb_request type_error_message req_query;
               movie_details tmdb_request type_error_message id;
               genres_list tmdb_request type_error_message] in
  Forall (fun run => (length (fst run) <= 1)%nat /\
                     envelope (snd run) /\
                     (status (snd run) = 200 \/ status (snd run) = 400 \/
                      status (snd run) = 500)) runs.
Proof.
  assert (Hok : forall (m : Proxy Response) h,
            (length (fst m) <= 1)%nat ->
            (forall r, snd m = inr r ->
                       (status r = 200 \/ status r = 400) /\ envelope r) ->
            (forall e, envelope (h e) /\ status (h e) = 500) ->
            (length (fst (p_catch m h)) <= 1)%nat /\
            envelope (snd (p_catch m h)) /\
            (status (snd (p_catch m h)) = 200 \/
             status (snd (p_catch m h)) = 400 \/
             status (snd (p_catch m h)) = 500)).
  { intros m h Hlen Hr Hh. rewrite p_catch_fst, p_catch_snd.
    split; [done|]. destruct (snd m) as [e|r].
    - destruct (Hh e) as [? ->]. auto.
    - destruct (Hr r eq_refl) as [[->| ->] ?]; auto. }
  assert (Henv200 : forall r, status r = 200 ->
            js_get (body r) "success" = Some (JBool true) ->
            (status r = 200 \/ status r = 400) /\ envelope r).
  { intros r Hs Hb. split; [by left|]. split; [by left|]. by rewrite Hs. }
  assert (Hfail : forall msg, envelope (failure 500 msg) /\
                              status (failure 500 msg) = 500).
  { intros. split; [|done]. split; [simpl; auto 10|reflexivity]. }
  assert (Hone : forall (l : list UpstreamCall) c, l = [c] ->
                                                  (length l <= 1)%nat)
    by (intros l c Heq; rewrite Heq; simpl; lia).
  constructor; [|constructor; [|constructor; [|constructor; [|constructor]]]].
  - (* popular *)
    unfold popular_movies. apply Hok; [| |apply upstream_failure_envelope].
    + rewrite p_bind_fst, p_get_calls. simpl.
      destruct (snd (p_get _ _ _)); [simpl; lia|].
      eapply Hone. exact (proj1 (listing_at_most_one_call _ _ _ [])).
    + intros r Hr. apply p_bind_inr in Hr as (pageV & _ & Hr).
      apply p_bind_inr in Hr as (data & _ & Hr).
      apply p_bind_inr in Hr as (results & _ & Hr).
      apply p_bind_inr in Hr as (movies & _ & Hr).
      apply p_bind_inr in Hr as (tp & _ & Hr).
      apply p_bind_inr in Hr as (tr & _ & Hr).
      apply p_bind_inr in Hr as (pg & _ & Hr).
      injection Hr as <-. by apply Henv200.
  - (* search *)
    unfold search_movies. apply Hok; [| |apply upstream_failure_envelope].
    + rewrite p_bind_fst, p_get_calls. simpl.
      destruct (snd (p_get _ _ "query")) as [|query]; [simpl; lia|].
      rewrite p_bind_fst, p_get_calls. simpl.
      destruct (snd (p_get _ _ "page")) as [|pageV]; [simpl; lia|].
      destruct (negb (js_truthy query)); [simpl; lia|].
      eapply Hone.
      exact (proj1 (listing_at_most_one_call _ _ _ [("query", query)])).
    + intros r Hr. apply p_bind_inr in Hr as (query & _ & Hr).
      apply p_bind_inr in Hr as (pageV & _ & Hr).
      destruct (negb (js_truthy query)).
      { injection Hr as <-. split; [by right|].
        split; [simpl; auto 10|reflexivity]. }
      apply p_bind_inr in Hr as (data & _ & Hr).
      apply p_bind_inr in Hr as (results & _ & Hr).
      apply p_bind_inr in Hr as (movies & _ & Hr).
      apply p_bind_inr in Hr as (tp & _ & Hr).
      apply p_bind_inr in Hr as (tr & _ & Hr).
      apply p_bind_inr in Hr as (pg & _ & Hr).
      injection Hr as <-. by apply Henv200.
  - (* details *)
    unfold movie_details. apply Hok; [| |apply upstream_failure_envelope].
    + rewrite p_bind_fst. cbn [p_request fst snd].
      destruct (tmdb_request _ _) as [e|data]; [simpl; lia|].
      rewrite p_bind_calls; [simpl; lia|apply p_pick_calls|]. intros plain.
      apply p_bind_calls; [apply p_first_calls|]. intros cast.
      apply p_bind_calls; [apply p_first_calls|]. intros crew.
      apply p_bind_calls; [apply p_get_calls|]. intros videos.
      apply p_bind_calls; [apply p_first_calls|]. done.
    + intros r Hr. apply p_bind_inr in Hr as (data & _ & Hr).
      apply p_bind_inr in Hr as (plain & _ & Hr).
      apply p_bind_inr in Hr as (cast & _ & Hr).
      apply p_bind_inr in Hr as (crew & _ & Hr).
      apply p_bind_inr in Hr as (videos & _ & Hr).
      apply p_bind_inr in Hr as (similar & _ & Hr).
      injection Hr as <-. by apply Henv200.
  - (* genres *)
    unfold genres_list. apply Hok; [| |intros; apply Hfail].
    + rewrite p_bind_fst. cbn [p_request fst snd].
      destruct (tmdb_request _ _) as [e|data]; [simpl; lia|].
      rewrite p_bind_calls; [simpl; lia|apply p_get_calls|done].
    + intros r Hr. apply p_bind_inr in Hr as (data & _ & Hr).
      apply p_bind_inr in Hr as (genres & _ & Hr).
      injection Hr as <-. by apply Henv200.
Qed.

End CatalogProperties.

(** ** The further properties at the sample data *)

Lemma bearer_token_of_client_header_sample :
  bearer_token (Some (authorization_header (Some "abc.def.ghi")))
  = Some "abc.def.ghi".
Proof.
  refine (proj1 (bearer_token_of_client_header "abc.def.ghi" _)).
  intros c Hc. simpl in Hc.
  repeat (destruct Hc as [<-|Hc]; [discriminate|]). destruct Hc.
Defined.

Lemma rejected_favorites_request_only_reads_sample :
  let run req := serve "s3cret" sample_sign sample_verify sample_hash
                       sample_compare sample_tmdb no_cast_string
                       no_cast_number sample_cast_oid sample_message req
                       sample_world in
  let rejected := (inr (failure 401 "Invalid token"),
                   logged sample_world
                     [EvJwtVerify "stale";
                      EvFindById (JStr "000000000000000000000009")]) in
  run (GetFavorites (Some "Bearer stale")) = rejected /\
  run (PostFavorites (Some "Bearer stale") (JObj [("movieId", JNum 5)]))
  = rejected.
Proof.
  intros run rejected.
  destruct (rejected_favorites_request_only_reads "s3cret" sample_sign
              sample_verify sample_hash sample_compare sample_tmdb
              no_cast_string no_cast_number sample_cast_oid sample_message
              (Some "Bearer stale") (JObj [("movieId", JNum 5)]) sample_world)
    as (message & evs & Hget & Hpost & _).
  { right. exists "stale". split; [reflexivity|]. split; [discriminate|].
    intros decoded Hd. injection Hd as <-. reflexivity. }
  assert (Heq : (inr (failure 401 message), logged sample_world evs)
                = rejected) by (rewrite <- Hget; reflexivity).
  subst run. cbv beta. rewrite Hget, Hpost. split; exact Heq.
Defined.

Lemma listing_is_of_token_user_sample :
  serve "s3cret" sample_sign sample_verify sample_hash sample_compare
        sample_tmdb no_cast_string no_cast_number sample_cast_oid
        sample_message (GetFavorites (Some "Bearer good")) sample_world
  = (inr (mkResponse 200
            (JObj [("success", JBool true);
                   ("favorites", JArr [sample_summary 101 1000;
                                       sample_summary 303 3000])])),
     logged sample_world
       [EvJwtVerify "good"; EvFindById (JStr "000000000000000000000007");
        EvFindById (JOid 7%nat); EvTmdbGet 101; EvTmdbGet 202;
        EvTmdbGet 303]).
Proof.
  exact (listing_is_of_token_user "s3cret" sample_sign sample_verify
           sample_hash sample_compare sample_tmdb no_cast_string
           no_cast_number sample_cast_oid sample_message
           (Some "Bearer good") "good" sample_decoded
           (JStr "000000000000000000000007") 7%nat sample_user sample_world
           eq_refl ltac:(discriminate) eq_refl eq_refl eq_refl eq_refl).
Defined.

Lemma added_favorite_is_listed_last_sample :
  let body := JObj [("movieId", JNum 404)] in
  let w1 := snd (add_favorite sample_hash no_cast_number sample_cast_oid
                              sample_req_user body sample_world) in
  fst (get_favorites sample_tmdb sample_cast_oid sample_req_user w1)
  = inr (mkResponse 200
           (JObj [("success", JBool true);
                  ("favorites", JArr [sample_summary 101 1000;
                                      sample_summary 303 3000;
                                      sample_summary 404 5000])])).
Proof.
  refine (added_favorite_is_listed_last sample_hash sample_tmdb no_cast_number
            sample_cast_oid sample_req_user (JObj [("movieId", JNum 404)]) 404
            sample_user sample_world eq_refl _ eq_refl _).
  - discriminate.
  - simpl. rewrite !elem_of_cons, elem_of_nil. lia.
Defined.

Lemma sample_bcrypt_accepts plain salt :
  sample_compare plain (sample_hash plain 12 salt) = true.
Proof. apply String.eqb_refl. Qed.

Lemma sample_world_free :
  ~ (exists x, x ∈ store sample_world /\
               (email x = "b@x.com" \/ username x = "bob")).
Proof.
  intros (x & Hx & Hm). apply list_elem_of_singleton in Hx. subst x.
  by destruct Hm.
Qed.

Lemma register_then_login_sample :
  let reg := JObj [("username", JStr "bob"); ("email", JStr "b@x.com");
                   ("password", JStr "secret2")] in
  let cred := JObj [("email", JStr "b@x.com"); ("password", JStr "secret2")] in
  let w1 := snd (register "s3cret" sample_sign sample_hash no_cast_string
                          sample_message reg sample_world) in
  fst (login "s3cret" sample_sign sample_compare no_cast_string sample_message
             cred w1)
  = inr (mkResponse 200
           (JObj [("success", JBool true);
                  ("message", JStr "Login successful");
                  ("user", JObj [("id", JOid 8%nat); ("username", JStr "bob");
                                 ("email", JStr "b@x.com")]);
                  ("token", JStr "token-for-s3cret")])).
Proof.
  exact (proj2 (register_then_login "s3cret" sample_sign sample_hash
                  sample_compare no_cast_string sample_message
                  (JObj [("username", JStr "bob"); ("email", JStr "b@x.com");
                         ("password", JStr "secret2")])
                  (JObj [("email", JStr "b@x.com"); ("password", JStr "secret2")])
                  "bob" "b@x.com" "secret2" sample_world
                  sample_bcrypt_accepts eq_refl eq_refl eq_refl eq_refl eq_refl
                  ltac:(discriminate) ltac:(discriminate) ltac:(discriminate)
                  sample_world_free)).
Defined.

Lemma serve_keeps_accounts_unique_sample :
  unique_accounts
    (store (snd (serve "s3cret" sample_sign sample_verify sample_hash
                       sample_compare sample_tmdb no_cast_string
                       no_cast_number sample_cast_oid sample_message
                       (PostRegister
                          (JObj [("username", JStr "bob");
                                 ("email", JStr "b@x.com");
                                 ("password", JStr "secret2")]))
                       sample_world))).
Proof.
  apply serve_keeps_accounts_unique.
  split; simpl; apply NoDup_singleton.
Defined.

Lemma register_only_appends_sample :
  let reg := JObj [("username", JStr "bob"); ("email", JStr "b@x.com");
                   ("password", JStr "secret2")] in
  length (store (snd (register "s3cret" sample_sign sample_hash no_cast_string
                               sample_message reg sample_world)))
  = 2%nat.
Proof.
  intros reg.
  refine (proj2 (register_only_appends "s3cret" sample_sign sample_hash
                   no_cast_string sample_message reg sample_world)
                _ eq_refl eq_refl).
Defined.

Lemma login_succeeds_iff_sample :
  let cred := JObj [("email", JStr "a@x.com"); ("password", JStr "secret1")] in
  exists token,
    fst (login "s3cret" sample_sign sample_compare no_cast_string
               sample_message cred sample_world)
    = inr (mkResponse 200
             (JObj [("success", JBool true);
                    ("message", JStr "Login successful");
                    ("user", JObj [("id", JOid 7%nat); ("username", JStr "ana");
                                   ("email", JStr "a@x.com")]);
                    ("token", JStr token)])).
Proof.
  intros cred.
  refine (proj1 (login_succeeds_iff "s3cret" sample_sign sample_compare
                   no_cast_string sample_message cred "a@x.com" "secret1"
                   sample_world eq_refl eq_refl _ _)
                sample_user (conj eq_refl eq_refl)); discriminate.
Defined.

Lemma registered_token_opens_middleware_sample :
  let reg := JObj [("username", JStr "bob"); ("email", JStr "b@x.com");
                   ("password", JStr "secret2")] in
  let w1 := snd (register "s3cret" sample_sign sample_hash no_cast_string
                          sample_message reg sample_world) in
  fst (authenticateToken "s3cret" sample_verify_issued sample_cast_oid
         (Some (authorization_header (Some "token-for-s3cret"))) w1)
  = inr (inr (mkDoc 8%nat "bob" "b@x.com" None [] [] false [])).
Proof.
  intros reg w1.
  refine (registered_token_opens_middleware "s3cret" sample_sign
            sample_verify_issued sample_hash no_cast_string sample_cast_oid
            sample_message reg "bob" "b@x.com" "secret2"
            (JObj [("userId", JStr "000000000000000000000008");
                   ("email", JStr "b@x.com");
                   ("iat", JNum 5); ("exp", JNum 604805)])
            (JStr "000000000000000000000008") sample_world
            eq_refl eq_refl eq_refl _ _ _ sample_world_free _ _ _
            eq_refl eq_refl eq_refl);
    try discriminate.
  - intros x Hx. apply list_elem_of_singleton in Hx. subst x. discriminate.
  - intros c Hc. simpl in Hc.
    repeat (destruct Hc as [<-|Hc]; [discriminate|]). destruct Hc.
Defined.

Lemma search_asks_catalogue_iff_query_sample :
  search_movies sample_catalogue sample_type_error
                (JObj [("query", JStr ""); ("page", JStr "3")])
  = ([], failure 400 "Search query is required") /\
  fst (search_movies sample_catalogue sample_type_error
                     (JObj [("query", JStr "heat")]))
  = [("/search/movie", [("query", JStr "heat"); ("page", JNum 1)])].
Proof.
  split.
  - exact (proj1 (search_asks_catalogue_iff_query sample_catalogue
                    sample_type_error
                    (JObj [("query", JStr ""); ("page", JStr "3")]) eq_refl)
                 eq_refl).
  - exact (proj2 (search_asks_catalogue_iff_query sample_catalogue
                    sample_type_error (JObj [("query", JStr "heat")]) eq_refl)
                 eq_refl).
Defined.

Lemma catalogue_lists_are_reshaped_sample :
  snd (search_movies sample_catalogue sample_type_error
                     (JObj [("query", JStr "heat")]))
  = mkResponse 200
      (JObj [("success", JBool true);
             ("results", JArr (picked search_fields
                               <$> [sample_film 11; sample_film 12;
                                    sample_film 13]));
             ("total_pages", JNum 9); ("total_results", JNum 170);
             ("page", JNum 2); ("query", JStr "heat")]).
Proof.
  exact (f_equal snd
           (proj2 (catalogue_lists_are_reshaped sample_catalogue
                     sample_type_error (JObj [("query", JStr "heat")])
                     sample_page
                     [sample_film 11; sample_film 12; sample_film 13]
                     eq_refl eq_refl
                     ltac:(repeat constructor))
                  eq_refl eq_refl)).
Defined.

Lemma movie_details_lists_are_bounded_sample :
  exists fields cast,
    body (snd (movie_details sample_catalogue sample_type_error "11"))
    = JObj [("success", JBool true); ("data", JObj fields)] /\
    assoc "cast" fields = Some cast /\ at_most 10 cast.
Proof.
  destruct (movie_details_lists_are_bounded sample_catalogue sample_type_error
              "11" eq_refl)
    as (fields & cast & crew & similar & Hbody & Hcast & Hten & _).
  exists fields, cast. split; [exact Hbody|]. split; [exact Hcast|exact Hten].
Defined.

Lemma movie_details_missing_sections_sample :
  snd (movie_details sample_bare_catalogue sample_type_error "5")
  = mkResponse 200
      (JObj [("success", JBool true);
             ("data",
              JObj (((fun k => (k, js_get_optional
                                     (JObj [("id", JNum 5);
                                            ("title", JStr "Bare")]) k))
                     <$> detail_fields)
                    ++ [("cast", JArr []); ("crew", JArr []);
                        ("videos", JArr []); ("similar", JArr [])]))]).
Proof.
  exact (proj1 (movie_details_missing_sections sample_bare_catalogue
                  sample_type_error "5"
                  (JObj [("id", JNum 5); ("title", JStr "Bare")])
                  eq_refl eq_refl)
               eq_refl eq_refl eq_refl).
Defined.

Lemma catalogue_failure_is_reported_sample :
  movie_details sample_catalogue sample_type_error "99"
  = ([("/movie/99", [("append_to_response", JStr "credits,videos,similar")])],
     mkResponse 500
       (JObj [("success", JBool false);
              ("message", JStr "Error fetching movie details");
              ("error", JStr "The resource could not be found.")])).
Proof.
  destruct (catalogue_failure_is_reported sample_catalogue sample_type_error
              (JObj []) "99"
              (AxiosFailure
                 (JObj [("status", JNum 404);
                        ("data", JObj [("status_message",
                                        JStr "The resource could not be found.")])])
                 "Request failed with status code 404")
              eq_refl)
    as (_ & _ & Hdetails & _).
  exact (Hdetails eq_refl).
Defined.
